(** * HydroOJ-Course: a shallow embedding of [src/index.ts]

    The development follows the source file top to bottom: the document
    types, [CourseModel], then one module per request handler.  Host
    platform primitives (the document store, the identity service, the
    blob store, the JavaScript runtime) appear as explicit state or as
    interfaces; everything else is a transcription of the TypeScript.

    Conventions.
    - A [Date] is its time value in milliseconds (a [Z]); comparisons of
      dates in the source are comparisons of these values.
    - User ids, problem ids, scores and byte sizes are the integral
      [number]s the platform stores, hence [Z].
    - An [ObjectId] is the 96-bit number it encodes.
    - Text that the source inspects character by character (titles, the
      search query, the submitted problem list) is a sequence of UTF-16
      code units, as a JavaScript string is; names that are only compared
      for equality (domains, groups, file names) are [string]s. *)

From Stdlib Require Import ZArith QArith DecimalString.
From stdpp Require Import base option list gmap strings sorting.

Local Open Scope Z_scope.

(** ** Document types *)

Definition ObjectId := N.
Definition Date := Z.

(** A JavaScript string, as its UTF-16 code units. *)
Definition jsstring := list N.

(** The code units of an ASCII literal. *)
Definition js (s : string) : jsstring :=
  Ascii.N_of_ascii <$> String.list_ascii_of_string s.

Record FileInfo := mkFileInfo {
  file_id : string;
  file_name : string;
  file_size : option Z;
  file_lastModified : option Date;
  file_etag : option string
}.

(** [CourseDoc]: optional fields of the interface are [option]s, an
    absent field is [None]. *)
Record CourseDoc := mkCourseDoc {
  c_docId : ObjectId;
  c_domainId : string;
  c_owner : Z;
  c_maintainer : option (list Z);
  c_title : jsstring;
  c_content : jsstring;
  c_beginAt : Date;
  c_endAt : Date;
  c_attend : Z;
  c_pids : list Z;
  c_files : option (list FileInfo);
  c_assign : option (list string);
  c_classes : option (list string);
  c_teachers : option (list Z)
}.

Record JournalEntry := mkJournalEntry {
  j_pid : Z;
  j_rid : ObjectId;
  j_score : Z;
  j_status : Z
}.

(** [CourseStatusDoc], the per-student status document. *)
Record CourseStatusDoc := mkCourseStatusDoc {
  s_docId : ObjectId;
  s_domainId : string;
  s_uid : Z;
  s_enroll : option Z;
  s_attend : option Z;
  s_startAt : option Date;
  s_journal : option (list JournalEntry)
}.

#[global] Instance JournalEntry_eq_dec : EqDecision JournalEntry.
Proof. solve_decision. Defined.

(** [x || 0] on a number: a falsy number is replaced by [0]. *)
Definition or_zero (x : Z) : Z := if bool_decide (x = 0) then 0 else x.

(** [a || []] on an optional array. *)
Definition or_nil {A} (a : option (list A)) : list A := default [] a.

(** The sum of a list of numbers. *)
Definition sum_Z (l : list Z) : Z := foldr Z.add 0 l.

(** ** Requests: the user object, permissions and failures *)

Inductive PERM :=
| PERM_VIEW_HOMEWORK
| PERM_CREATE_HOMEWORK
| PERM_ATTEND_HOMEWORK
| PERM_EDIT_HOMEWORK
| PERM_EDIT_HOMEWORK_SELF
| PERM_VIEW_HOMEWORK_SCOREBOARD
| PERM_VIEW_HIDDEN_HOMEWORK
| PERM_VIEW_PROBLEM_HIDDEN.

(** [this.user]: its id and the two methods of the platform's user
    object that the handlers call. *)
Record User := mkUser {
  u_id : Z;
  hasPerm : PERM → bool;
  own : CourseDoc → bool
}.

Inductive QuotaKind := QuotaCount | QuotaSize.

(** What a handler can throw. *)
Inductive Error :=
| AlreadyEnrolled                       (* Error('Already enrolled in this course') *)
| ValidationError (fields : list string)
| PermissionError (perm : PERM)
| NotFoundError
| CourseNotFoundError
| ProblemNotFoundError
| FileLimitExceededError (kind : QuotaKind)
| FileUploadError.

Inductive Result (A : Type) :=
| Ok (a : A)
| Throw (e : Error).
Arguments Ok {A} a.
Arguments Throw {A} e.

(** [this.checkPerm(p)] *)
Definition checkPerm (user : User) (p : PERM) : Result () :=
  if hasPerm user p then Ok () else Throw (PermissionError p).

#[global] Instance Result_bind : MBind Result :=
  λ A B f r, match r with Ok a => f a | Throw e => Throw e end.

(** ** The parameters of a request

    The methods of the handlers are wrapped by the platform's [@param]
    decorators, which are not part of this plugin.  Modelled from the
    spec (a missing required field is a Validation failure) and from the
    arguments the source gives each decorator: a declared parameter has a
    name and a type of the platform ([Types.Title], [Types.Date], ...),
    and is required unless the third argument is [true].  What a type
    accepts and how it converts the submitted value is the platform's: a
    request carries, for each parameter, what the platform's type made of
    the value. *)
Inductive Submitted (A : Type) :=
| Absent                 (* nothing was submitted under the name *)
| Rejected               (* the type refused the value *)
| Accepted (a : A).      (* the value, converted by the type *)
Arguments Absent {A}.
Arguments Rejected {A}.
Arguments Accepted {A} a.

(** [@param(name, type)] *)
Definition required {A} (name : string) (v : Submitted A) : Result A :=
  match v with
  | Accepted a => Ok a
  | _ => Throw (ValidationError [name])
  end.

(** [@param(name, type, true)]: the argument is [undefined] when nothing
    was submitted. *)
Definition optional {A} (name : string) (v : Submitted A) : Result (option A) :=
  match v with
  | Accepted a => Ok (Some a)
  | Absent => Ok None
  | Rejected => Throw (ValidationError [name])
  end.

(** ** The document store

    Course documents are keyed by (domain, document id), status documents
    by (domain, document id, user id); the document type is the constant
    [TYPE_COURSE] throughout. *)
Record Store := mkStore {
  st_docs : gmap (string * ObjectId) CourseDoc;
  st_status : gmap (string * ObjectId * Z) CourseStatusDoc
}.

Module DocumentModel.

Definition set_attend (v : Z) (cdoc : CourseDoc) : CourseDoc :=
  {| c_docId := c_docId cdoc; c_domainId := c_domainId cdoc; c_owner := c_owner cdoc;
     c_maintainer := c_maintainer cdoc; c_title := c_title cdoc;
     c_content := c_content cdoc; c_beginAt := c_beginAt cdoc; c_endAt := c_endAt cdoc;
     c_attend := v; c_pids := c_pids cdoc; c_files := c_files cdoc;
     c_assign := c_assign cdoc; c_classes := c_classes cdoc;
     c_teachers := c_teachers cdoc |}.

(** Modelled from the spec: the host's [DocumentModel.inc], used here on
    the key ['attend'] only: it adds [value] to the counter of the course
    document, and changes nothing when there is no such document. *)
Definition inc (st : Store) (domainId : string) (cid : ObjectId) (value : Z) : Store :=
  {| st_docs := alter (λ cdoc, set_attend (c_attend cdoc + value) cdoc) (domainId, cid) (st_docs st);
     st_status := st_status st |}.

(** Modelled from the spec: the host's [DocumentModel.setIfNotStatus], used
    here on the key ['attend'] only.  It is one atomic conditional write
    on the status document of (domain, document, user): refused ([None],
    the call throws) when that document already holds [ifNot] under the
    key; otherwise the key is set to [value] together with the fields of
    [args] (here [enroll] and [startAt]), creating the document when it
    is absent. *)
Definition setIfNotStatus (st : Store) (domainId : string) (cid : ObjectId) (uid : Z)
    (value ifNot : Z) (enroll : Z) (startAt : Date) : option Store :=
  let key := (domainId, cid, uid) in
  let cur := st_status st !! key in
  if bool_decide ((cur ≫= s_attend) = Some ifNot) then None
  else
    let doc :=
      {| s_docId := cid; s_domainId := domainId; s_uid := uid;
         s_enroll := Some enroll; s_attend := Some value; s_startAt := Some startAt;
         s_journal := cur ≫= s_journal |} in
    Some {| st_docs := st_docs st; st_status := <[key := doc]> (st_status st) |}.

(** The host's [DocumentModel.deleteOne]: the course document goes, when
    there is one. *)
Definition deleteOne (st : Store) (domainId : string) (cid : ObjectId) : Store :=
  {| st_docs := delete (domainId, cid) (st_docs st); st_status := st_status st |}.

(** The host's [DocumentModel.deleteMultiStatus] with the filter
    [{ docId: cid }]: the status documents of that document go, whoever
    the user. *)
Definition deleteMultiStatus (st : Store) (domainId : string) (cid : ObjectId) : Store :=
  {| st_docs := st_docs st;
     st_status := filter (λ kv, kv.1.1 ≠ (domainId, cid)) (st_status st) |}.

End DocumentModel.

(** ** CourseModel

    [new Date()] is the instant of evaluation; it is the argument [now]. *)
Module CourseModel.

Definition get (st : Store) (domainId : string) (cid : ObjectId) : option CourseDoc :=
  st_docs st !! (domainId, cid).

Definition getStatus (st : Store) (domainId : string) (cid : ObjectId) (uid : Z)
    : option CourseStatusDoc :=
  st_status st !! (domainId, cid, uid).

Definition attend (st : Store) (domainId : string) (cid : ObjectId) (uid : Z) (now : Date)
    : Result () * Store :=
  match DocumentModel.setIfNotStatus st domainId cid uid 1 1 1 now with
  | None => (Throw AlreadyEnrolled, st)
  | Some st' => (Ok (), DocumentModel.inc st' domainId cid 1)
  end.

Definition isOngoing (cdoc : CourseDoc) (now : Date) : bool :=
  (c_beginAt cdoc <=? now) && (now <? c_endAt cdoc).

Definition isNotStarted (cdoc : CourseDoc) (now : Date) : bool :=
  now <? c_beginAt cdoc.

Definition isDone (cdoc : CourseDoc) (now : Date) : bool :=
  c_endAt cdoc <=? now.

(** [del]: the two deletions are issued together; they touch different
    collections. *)
Definition del (st : Store) (domainId : string) (cid : ObjectId) : Store :=
  DocumentModel.deleteMultiStatus (DocumentModel.deleteOne st domainId cid) domainId cid.

End CourseModel.

(** ** Concurrent calls of [CourseModel.attend]

    A call is two store operations with an [await] between them, so calls
    of different requests interleave at that point.  A configuration is
    the store and, for every call in flight, where it stands. *)
Module Enroll.

Inductive Pc :=
| AtSet (now : Date)      (* about to run setIfNotStatus; [now] is its startAt *)
| AtInc                   (* the conditional write succeeded, inc is next *)
| Returned                (* the call returned *)
| Thrown.                 (* the call threw 'Already enrolled in this course' *)

#[global] Instance Pc_eq_dec : EqDecision Pc.
Proof. solve_decision. Defined.

Record Config := mkConfig {
  cf_store : Store;
  cf_calls : list Pc
}.

Section steps.
Variables (domainId : string) (cid : ObjectId) (uid : Z).

(** One store operation of one of the calls. *)
Inductive step : Config → Config → Prop :=
| step_set_ok st st' calls i now :
    calls !! i = Some (AtSet now) →
    DocumentModel.setIfNotStatus st domainId cid uid 1 1 1 now = Some st' →
    step (mkConfig st calls) (mkConfig st' (<[i := AtInc]> calls))
| step_set_conflict st calls i now :
    calls !! i = Some (AtSet now) →
    DocumentModel.setIfNotStatus st domainId cid uid 1 1 1 now = None →
    step (mkConfig st calls) (mkConfig st (<[i := Thrown]> calls))
| step_inc st calls i :
    calls !! i = Some AtInc →
    step (mkConfig st calls)
         (mkConfig (DocumentModel.inc st domainId cid 1) (<[i := Returned]> calls)).

(** Executions: any number of steps, in any order of the calls. *)
Definition steps : Config → Config → Prop := rtc step.

Definition finished (pc : Pc) : bool :=
  match pc with Returned | Thrown => true | _ => false end.

Definition final (c : Config) : Prop := Forall (λ pc, finished pc = true) (cf_calls c).

(** The initial configuration of [length nows] simultaneous calls. *)
Definition init (st : Store) (nows : list Date) : Config :=
  mkConfig st (AtSet <$> nows).

Definition tally (f : Pc → bool) (c : Config) : nat :=
  length (filter (λ pc, f pc = true) (cf_calls c)).

Definition at_set (pc : Pc) : bool := match pc with AtSet _ => true | _ => false end.
Definition at_inc (pc : Pc) : bool := match pc with AtInc => true | _ => false end.
Definition returned (pc : Pc) : bool := match pc with Returned => true | _ => false end.
Definition thrown (pc : Pc) : bool := match pc with Thrown => true | _ => false end.

Definition enrolled (st : Store) : Prop :=
  (st_status st !! (domainId, cid, uid)) ≫= s_attend = Some 1.

Definition counter (st : Store) : Z :=
  default 0 (c_attend <$> st_docs st !! (domainId, cid)).

(** What one [inc] adds to the counter: 1 when the course document
    exists. *)
Definition bump (st : Store) : Z :=
  match st_docs st !! (domainId, cid) with Some _ => 1 | None => 0 end.

(** The store operations the calls in flight still have to run. *)
Definition weight (c : Config) : nat := 2 * tally at_set c + tally at_inc c.

(** What holds of every configuration that [length nows] simultaneous
    calls can reach from the store [st0]. *)
Definition invariant (st0 : Store) (nows : list Date) (c : Config) : Prop :=
  length (cf_calls c) = length nows
  ∧ (enrolled (cf_store c) ↔ enrolled st0 ∨ (1 ≤ tally at_inc c + tally returned c)%nat)
  ∧ (enrolled st0 → (tally at_inc c + tally returned c = 0)%nat ∧ cf_store c = st0)
  ∧ (tally at_inc c + tally returned c ≤ 1)%nat
  ∧ ((1 ≤ tally thrown c)%nat → enrolled (cf_store c))
  ∧ counter (cf_store c) = counter st0 + bump st0 * Z.of_nat (tally returned c)
  ∧ bump (cf_store c) = bump st0
  ∧ (∀ k, k ≠ (domainId, cid, uid) → st_status (cf_store c) !! k = st_status st0 !! k).

End steps.

End Enroll.

(** ** JavaScript numbers and the host runtime *)

(** A [number] as the runtime produces it from text. *)
Inductive JSNumber :=
| JNaN
| JInfinity (negative : bool)
| JFinite (v : Q).

(** Truthiness of a number: neither [NaN] nor zero. *)
Definition truthy (x : JSNumber) : bool :=
  match x with
  | JNaN => false
  | JInfinity _ => true
  | JFinite v => negb (Qeq_bool v 0)
  end.

(** The integer a number is, if it is one. *)
Definition as_integer (x : JSNumber) : option Z :=
  match x with
  | JFinite v => let r := Qred v in
                 if bool_decide (Qden r = 1%positive) then Some (Qnum r) else None
  | _ => None
  end.

(** The parts of the JavaScript runtime and of the database's pattern
    engine that the handlers rely on and that are tables or
    implementation-defined parsers rather than code of this plugin. *)
Class Host := {
  (** [String.prototype.toLowerCase] *)
  toLowerCase : jsstring → jsstring;
  (** unary [+] on a string *)
  ToNumber : jsstring → JSNumber;
  (** [new Date(s).getTime()]; [None] is [NaN], an invalid date *)
  Date_of_string : jsstring → option Date;
  (** case canonicalisation of the pattern engine under flag [i] *)
  canonicalize : N → N;
  (** the characters after which a line starts, for [^] under flag [m] *)
  lineTerminator : N → bool
}.

(** ** A reference host

    One runtime to run the handlers on: ECMAScript's string-to-number
    conversion, ASCII case mapping, ECMAScript's line terminators, and a
    date parser for the form [YYYY-MM-DD HH:MM] in UTC (the standard
    leaves the parsing of this form to the implementation). *)
Module ReferenceHost.

(** [StrWhiteSpaceChar]: white space and line terminators. *)
Definition is_whitespace (c : N) : bool :=
  bool_decide (c ∈ [9; 10; 11; 12; 13; 32; 160; 5760; 8232; 8233; 8239; 8287; 12288; 65279]%N)
  || ((8192 <=? c)%N && (c <=? 8202)%N).

Fixpoint trim_start (s : jsstring) : jsstring :=
  match s with
  | c :: rest => if is_whitespace c then trim_start rest else s
  | [] => []
  end.

Definition trim (s : jsstring) : jsstring :=
  reverse (trim_start (reverse (trim_start s))).

(** The value of a digit in the given radix. *)
Definition digit (radix : Z) (c : N) : option Z :=
  let c := Z.of_N c in
  let v := if (48 <=? c) && (c <=? 57) then Some (c - 48)
           else if (97 <=? c) && (c <=? 122) then Some (c - 87)
           else if (65 <=? c) && (c <=? 90) then Some (c - 55)
           else None in
  v ≫= λ d, if d <? radix then Some d else None.

(** The longest prefix of digits, as their values, and what follows. *)
Fixpoint span_digits (radix : Z) (s : jsstring) : list Z * jsstring :=
  match s with
  | c :: rest =>
      match digit radix c with
      | Some d => let '(ds, r) := span_digits radix rest in (d :: ds, r)
      | None => ([], s)
      end
  | [] => ([], [])
  end.

Definition digits_value (radix : Z) (ds : list Z) : Z :=
  foldl (λ acc d, acc * radix + d) 0 ds.

(** Is [den * 2^k ≤ num]? *)
Definition ge_pow2 (num den k : Z) : bool :=
  if 0 <=? k then den * 2 ^ k <=? num else den <=? num * 2 ^ (- k).

(** The binary64 value nearest to [num / den] (both positive), ties to
    even. *)
Definition round_binary64 (num den : Z) : JSNumber :=
  let l := Z.log2 num - Z.log2 den in
  let e2 := if ge_pow2 num den l then l else l - 1 in
  let ex := Z.max (e2 - 52) (-1074) in
  let n' := if 0 <=? ex then num else num * 2 ^ (- ex) in
  let d' := if 0 <=? ex then den * 2 ^ ex else den in
  let mant := n' / d' in
  let rem := n' mod d' in
  let mant := if (d' <? 2 * rem) || ((d' =? 2 * rem) && Z.odd mant)
              then mant + 1 else mant in
  if 0 <=? ex then
    if 2 ^ 1024 <=? mant * 2 ^ ex then JInfinity false
    else JFinite (inject_Z (mant * 2 ^ ex))
  else JFinite (Qmake mant (Z.to_pos (2 ^ (- ex)))).

(** The number value of [mantissa * 10 ^ exponent]. *)
Definition decimal_value (mantissa exponent : Z) : JSNumber :=
  if mantissa =? 0 then JFinite (inject_Z 0)
  else if 0 <=? exponent then round_binary64 (mantissa * 10 ^ exponent) 1
  else round_binary64 mantissa (10 ^ (- exponent)).

Definition negate (x : JSNumber) : JSNumber :=
  match x with
  | JNaN => JNaN
  | JInfinity n => JInfinity (negb n)
  | JFinite v => JFinite (Qopp v)
  end.

(** [ExponentPart], after its [e]: an optional sign and digits up to the
    end of the text. *)
Definition exponent_part (s : jsstring) : option Z :=
  let '(negative, s) :=
    match s with
    | c :: rest => if bool_decide (c = 45%N) then (true, rest)
                   else if bool_decide (c = 43%N) then (false, rest)
                   else (false, s)
    | [] => (false, s)
    end in
  match span_digits 10 s with
  | ((_ :: _) as ds, []) => Some (if negative then - digits_value 10 ds else digits_value 10 ds)
  | _ => None
  end.

(** [StrUnsignedDecimalLiteral] *)
Definition unsigned_decimal (s : jsstring) : JSNumber :=
  if bool_decide (s = js "Infinity") then JInfinity false
  else
    let '(ip, r1) := span_digits 10 s in
    let '(fp, r2) :=
      match r1 with
      | c :: rest => if bool_decide (c = 46%N) then span_digits 10 rest else ([], r1)
      | [] => ([], r1)
      end in
    if bool_decide (ip = [] ∧ fp = []) then JNaN
    else
      let e :=
        match r2 with
        | [] => Some 0
        | c :: rest => if bool_decide (c = 101%N ∨ c = 69%N) then exponent_part rest else None
        end in
      match e with
      | None => JNaN
      | Some e => decimal_value (digits_value 10 (ip ++ fp)) (e - Z.of_nat (length fp))
      end.

(** [NonDecimalIntegerLiteral]: [0x], [0o] or [0b] and digits of that
    radix up to the end of the text. *)
Definition non_decimal (s : jsstring) : option JSNumber :=
  match s with
  | z :: p :: rest =>
      let radix :=
        if bool_decide (p = 120%N ∨ p = 88%N) then Some 16
        else if bool_decide (p = 111%N ∨ p = 79%N) then Some 8
        else if bool_decide (p = 98%N ∨ p = 66%N) then Some 2
        else None in
      if bool_decide (z = 48%N) then
        radix ≫= λ r,
          match span_digits r rest with
          | ((_ :: _) as ds, []) => Some (decimal_value (digits_value r ds) 0)
          | _ => Some JNaN
          end
      else None
  | _ => None
  end.

(** [StringToNumber] *)
Definition string_to_number (s : jsstring) : JSNumber :=
  let s := trim s in
  match s with
  | [] => JFinite (inject_Z 0)
  | c :: rest =>
      match non_decimal s with
      | Some x => x
      | None =>
          if bool_decide (c = 45%N) then negate (unsigned_decimal rest)
          else if bool_decide (c = 43%N) then unsigned_decimal rest
          else unsigned_decimal s
      end
  end.

Definition to_lower_ascii (c : N) : N :=
  if ((65 <=? c) && (c <=? 90))%N then (c + 32)%N else c.

Definition to_upper_ascii (c : N) : N :=
  if ((97 <=? c) && (c <=? 122))%N then (c - 32)%N else c.

Definition is_line_terminator (c : N) : bool :=
  bool_decide (c ∈ [10; 13; 8232; 8233]%N).

(** Days from 1970-01-01 to the given date of the Gregorian calendar. *)
Definition days_from_civil (y m d : Z) : Z :=
  let y := if m <=? 2 then y - 1 else y in
  let era := y / 400 in
  let yoe := y - era * 400 in
  let doy := (153 * (if 2 <? m then m - 3 else m + 9) + 2) / 5 + d - 1 in
  let doe := yoe * 365 + yoe / 4 - yoe / 100 + doy in
  era * 146097 + doe - 719468.

Definition days_in_month (y m : Z) : Z :=
  if bool_decide (m = 2) then
    if ((y mod 4 =? 0) && negb (y mod 100 =? 0)) || (y mod 400 =? 0) then 29 else 28
  else if bool_decide (m ∈ [4; 6; 9; 11]) then 30 else 31.

(** A run of digits followed by the separator [sep]. *)
Definition field (sep : N) (s : jsstring) : option (Z * jsstring) :=
  match span_digits 10 s with
  | ((_ :: _) as ds, c :: rest) =>
      if bool_decide (c = sep) then Some (digits_value 10 ds, rest) else None
  | _ => None
  end.

(** [YYYY-MM-DD HH:MM], read as UTC. *)
Definition parse_date (s : jsstring) : option Date :=
  '(y, s) ← field 45%N s;
  '(m, s) ← field 45%N s;
  '(d, s) ← field 32%N s;
  '(h, s) ← field 58%N s;
  match span_digits 10 s with
  | ((_ :: _) as ds, []) =>
      let mi := digits_value 10 ds in
      if (1 <=? m) && (m <=? 12) && (1 <=? d) && (d <=? days_in_month y m)
         && (h <=? 23) && (mi <=? 59)
      then Some (((days_from_civil y m d * 24 + h) * 60 + mi) * 60000)
      else None
  | _ => None
  end.

Definition host : Host := {|
  toLowerCase := fmap to_lower_ascii;
  ToNumber := string_to_number;
  Date_of_string := parse_date;
  canonicalize := to_upper_ascii;
  lineTerminator := is_line_terminator
|}.

End ReferenceHost.

(** ** Regular expressions

    [new RegExp(source, 'gim')].  The patterns the plugin builds are a
    literal text, escaped, with at most a leading [^]; the pattern syntax
    is read for that fragment and refused ([None]) outside it. *)
Module RegExp.

Record t := mk {
  source : jsstring;
  global : bool;
  ignoreCase : bool;
  multiline : bool
}.

(** The characters [^ $ \ . * + ? ( ) [ ] { } |]. *)
Definition syntax_chars : list N := js "^$\.*+?()[]{}|".

Definition is_syntax_char (c : N) : bool := bool_decide (c ∈ syntax_chars).

Definition backslash : N := 92%N.
Definition caret : N := 94%N.

Inductive Atom :=
| Lit (c : N)      (* one character, taken literally *)
| Bol.             (* the assertion [^] *)

Fixpoint parse (s : jsstring) : option (list Atom) :=
  match s with
  | [] => Some []
  | c :: rest =>
      if bool_decide (c = backslash) then
        match rest with
        | d :: rest' => if is_syntax_char d then (Lit d ::.) <$> parse rest' else None
        | [] => None
        end
      else if bool_decide (c = caret) then (Bol ::.) <$> parse rest
      else if is_syntax_char c then None
      else (Lit c ::.) <$> parse rest
  end.

Section matching.
Context `{Host}.
Variable re : t.

Definition char_matches (c d : N) : bool :=
  if ignoreCase re then bool_decide (canonicalize c = canonicalize d)
  else bool_decide (c = d).

(** Does a line start where the previous character is [prev]
    ([None]: the start of the input)? *)
Definition at_line_start (prev : option N) : bool :=
  match prev with
  | None => true
  | Some p => multiline re && lineTerminator p
  end.

(** The atoms match the input at its front; [prev] is the character
    before it. *)
Fixpoint match_here (atoms : list Atom) (prev : option N) (input : jsstring) : bool :=
  match atoms with
  | [] => true
  | Bol :: atoms' => at_line_start prev && match_here atoms' prev input
  | Lit c :: atoms' =>
      match input with
      | [] => false
      | d :: input' => char_matches c d && match_here atoms' (Some d) input'
      end
  end.

(** The atoms match somewhere in the input. *)
Fixpoint search (atoms : list Atom) (prev : option N) (input : jsstring) : bool :=
  match_here atoms prev input ||
  match input with
  | [] => false
  | d :: input' => search atoms (Some d) input'
  end.

End matching.

Definition test `{Host} (re : t) (input : jsstring) : option bool :=
  atoms ← parse (source re); Some (search re atoms None input).

End RegExp.

(** lodash's [escapeRegExp]: every syntax character gets a backslash in
    front of it. *)
Definition escapeRegExp (s : jsstring) : jsstring :=
  s ≫= λ c, if RegExp.is_syntax_char c then [RegExp.backslash; c] else [c].

(** ** Filters of the document store

    The fragment of the query language the plugin uses, evaluated on a
    course document as the database does: a scalar condition on an array
    field holds when some element satisfies it. *)
Module Filter.

Inductive Scalar := Num (n : Z) | Str (s : string).

#[global] Instance Scalar_eq_dec : EqDecision Scalar.
Proof. solve_decision. Defined.

Inductive Field := maintainer | owner | teachers | assign | classes.

Inductive Value :=
| Missing
| Single (v : Scalar)
| Array (vs : list Scalar).

Definition field_value (cdoc : CourseDoc) (f : Field) : Value :=
  match f with
  | owner => Single (Num (c_owner cdoc))
  | maintainer => from_option (λ l, Array (Num <$> l)) Missing (c_maintainer cdoc)
  | teachers => from_option (λ l, Array (Num <$> l)) Missing (c_teachers cdoc)
  | assign => from_option (λ l, Array (Str <$> l)) Missing (c_assign cdoc)
  | classes => from_option (λ l, Array (Str <$> l)) Missing (c_classes cdoc)
  end.

Inductive Cond :=
| Eq (f : Field) (v : Scalar)           (* { f: v } *)
| In (f : Field) (vs : list Scalar)     (* { f: { $in: vs } } *)
| Size (f : Field) (n : nat).           (* { f: { $size: n } } *)

Definition holds (cdoc : CourseDoc) (c : Cond) : bool :=
  match c with
  | Eq f v =>
      match field_value cdoc f with
      | Missing => false
      | Single w => bool_decide (w = v)
      | Array ws => bool_decide (v ∈ ws)
      end
  | In f vs =>
      match field_value cdoc f with
      | Missing => false
      | Single w => bool_decide (w ∈ vs)
      | Array ws => bool_decide (Exists (λ w, w ∈ vs) ws)
      end
  | Size f n =>
      match field_value cdoc f with
      | Array ws => bool_decide (length ws = n)
      | _ => false
      end
  end.

(** [Filter<CourseDoc>] as [CourseMainHandler.get] builds it: an optional
    [$or] and an optional [title: { $regex }]. *)
Record t := mk {
  or : option (list Cond);
  title : option RegExp.t
}.

Definition holds_or (q : t) (cdoc : CourseDoc) : bool :=
  match or q with
  | None => true
  | Some conds => existsb (holds cdoc) conds
  end.

Definition holds_title `{Host} (q : t) (cdoc : CourseDoc) : option bool :=
  match title q with
  | None => Some true
  | Some re => RegExp.test re (c_title cdoc)
  end.

(** A document is selected when every top-level key of the filter holds. *)
Definition matches `{Host} (q : t) (cdoc : CourseDoc) : option bool :=
  b ← holds_title q cdoc; Some (holds_or q cdoc && b).

End Filter.

(** ** CourseMainHandler.get: the filter of the course list

    [listGroup uid] is [UserModel.listGroup(domainId, uid)] mapped to the
    group names; [None] stands for [undefined], all groups of the domain. *)
Module CourseMainHandler.

Section get.
Context `{Host}.
Variables (user : User) (listGroup : option Z → list string).
Variables (q : jsstring) (group : string).

Definition groups : list string :=
  listGroup (if hasPerm user PERM_VIEW_HIDDEN_HOMEWORK then None else Some (u_id user)).

Definition escaped : jsstring := escapeRegExp (toLowerCase q).

Definition has_group : bool := negb (bool_decide (group = EmptyString)).

Definition accessConditions : list Filter.Cond :=
  [ Filter.Eq Filter.maintainer (Filter.Num (u_id user));
    Filter.Eq Filter.owner (Filter.Num (u_id user));
    Filter.Eq Filter.teachers (Filter.Num (u_id user));
    Filter.In Filter.assign (Filter.Str <$> groups);
    Filter.In Filter.classes (Filter.Str <$> groups);
    Filter.Size Filter.assign 0 ]
  ++ (if has_group
      then [ Filter.In Filter.assign [Filter.Str group];
             Filter.In Filter.classes [Filter.Str group] ]
      else []).

Definition title_regex : RegExp.t :=
  RegExp.mk (if bool_decide (2 ≤ length q)%nat then escaped else RegExp.caret :: escaped)
            true true true.

Definition query : Filter.t :=
  {| Filter.or :=
       if negb (hasPerm user PERM_VIEW_HIDDEN_HOMEWORK && negb has_group)
       then Some accessConditions else None;
     Filter.title :=
       if bool_decide (q = []) then None else Some title_regex |}.

End get.

End CourseMainHandler.

(** ** CourseDetailHandler *)
Module CourseDetailHandler.

(** [prepare]: load the course and check that the viewer may open it.
    [listGroup uid] is [UserModel.listGroup(domainId, uid)] mapped to the
    group names. *)
Definition hasAccess (user : User) (groups : list string) (cdoc : CourseDoc) : bool :=
  existsb (λ a, bool_decide (a ∈ groups)) (or_nil (c_assign cdoc))
  || existsb (λ c, bool_decide (c ∈ groups)) (or_nil (c_classes cdoc))
  || bool_decide (u_id user ∈ or_nil (c_teachers cdoc)).

(** [this.cdoc.assign?.length], as a condition. *)
Definition assign_length_truthy (cdoc : CourseDoc) : bool :=
  match c_assign cdoc with
  | Some l => negb (bool_decide (length l = 0%nat))
  | None => false
  end.

Definition prepare (user : User) (listGroup : option Z → list string)
    (st : Store) (domainId : string) (cid : ObjectId) : Result CourseDoc :=
  match CourseModel.get st domainId cid with
  | None => Throw CourseNotFoundError
  | Some cdoc =>
      if assign_length_truthy cdoc && negb (own user cdoc)
         && negb (hasPerm user PERM_VIEW_HIDDEN_HOMEWORK)
      then
        if hasAccess user (listGroup (Some (u_id user))) cdoc
        then Ok cdoc else Throw NotFoundError
      else Ok cdoc
  end.

(** [get], the part that computes [psdict], the student's own progress.
    [psdict] is a JavaScript object keyed by problem id; assigning to a
    key that is already present overwrites it. *)
Definition valid (cdoc : CourseDoc) (csdoc : CourseStatusDoc) : list JournalEntry :=
  filter (λ p, j_pid p ∈ c_pids cdoc) (or_nil (s_journal csdoc)).

Definition psdict_of (entries : list JournalEntry) : gmap Z JournalEntry :=
  foldl (λ d pdetail, <[j_pid pdetail := pdetail]> d) ∅ entries.

(** [psdict] stays [{}] when there is no status document. *)
Definition psdict (cdoc : CourseDoc) (csdoc : option CourseStatusDoc) : gmap Z JournalEntry :=
  match csdoc with
  | Some cs => psdict_of (valid cdoc cs)
  | None => ∅
  end.

(** [postAttend]; [cdoc] is [this.cdoc] as [prepare] left it, [now] the
    instant [isDone] reads the clock and [now'] the one [attend] does. *)
Definition postAttend (user : User) (cdoc : CourseDoc) (st : Store)
    (domainId : string) (cid : ObjectId) (now now' : Date) : Result () * Store :=
  match checkPerm user PERM_ATTEND_HOMEWORK with
  | Throw e => (Throw e, st)
  | Ok _ =>
      if CourseModel.isDone cdoc now
      then (Throw (ValidationError ["Course has ended"%string]), st)
      else CourseModel.attend st domainId cid (u_id user) now'
  end.

End CourseDetailHandler.

(** ** CourseEditHandler.postUpdate *)
Module CourseEditHandler.

Definition comma : N := 44%N.
Definition fullwidth_comma : N := 65292%N.
Definition space : N := 32%N.

(** [s.replace(/，/g, ',')] *)
Definition replace_fullwidth_commas (s : jsstring) : jsstring :=
  (λ c, if bool_decide (c = fullwidth_comma) then comma else c) <$> s.

(** [s.split(',')]: the pieces between the commas; the empty string
    gives one empty piece. *)
Fixpoint split_commas (s : jsstring) : list jsstring :=
  match s with
  | [] => [[]]
  | c :: rest =>
      if bool_decide (c = comma) then [] :: split_commas rest
      else match split_commas rest with
           | piece :: pieces => (c :: piece) :: pieces
           | [] => [[c]]
           end
  end.

(** [_pids.replace(/，/g, ',').split(',').map((i) => +i).filter((i) => i)] *)
Definition parse_pids `{Host} (_pids : jsstring) : list JSNumber :=
  filter (λ i, truthy i = true) (ToNumber <$> split_commas (replace_fullwidth_commas _pids)).

Record Args := mkArgs {
  a_maintainer : list Z;
  a_teachers : list Z;
  a_assign : list string;
  a_classes : list string
}.

(** [CourseModel.add]: a new document under the identifier [newId] that
    the store picked for it. *)
Definition add (st : Store) (domainId : string) (title content : jsstring) (owner : Z)
    (pids : list Z) (beginAt endAt : Date) (args : Args) (newId : ObjectId) : Store :=
  let cdoc :=
    {| c_docId := newId; c_domainId := domainId; c_owner := owner;
       c_maintainer := Some (a_maintainer args); c_title := title; c_content := content;
       c_beginAt := beginAt; c_endAt := endAt; c_attend := 0; c_pids := pids;
       c_files := None; c_assign := Some (a_assign args);
       c_classes := Some (a_classes args); c_teachers := Some (a_teachers args) |} in
  {| st_docs := <[(domainId, newId) := cdoc]> (st_docs st); st_status := st_status st |}.

(** The [$set] that [postUpdate] hands to [CourseModel.edit]. *)
Record Update := mkUpdate {
  set_title : jsstring;
  set_content : jsstring;
  set_pids : list Z;
  set_beginAt : Date;
  set_endAt : Date;
  set_args : Args
}.

(** [CourseModel.edit] with the fields [postUpdate] sets: the fields of
    the document are replaced, the others stay.  [CourseModel.edit] is
    the platform's [DocumentModel.set]; what that makes of a document
    that does not exist is the platform's, [set_absent]. *)
Definition edit (set_absent : Store → string → ObjectId → Update → Store)
    (st : Store) (domainId : string) (cid : ObjectId) (upd : Update) : Store :=
  match st_docs st !! (domainId, cid) with
  | Some cdoc =>
      let cdoc' :=
        {| c_docId := c_docId cdoc; c_domainId := c_domainId cdoc; c_owner := c_owner cdoc;
           c_maintainer := Some (a_maintainer (set_args upd)); c_title := set_title upd;
           c_content := set_content upd;
           c_beginAt := set_beginAt upd; c_endAt := set_endAt upd;
           c_attend := c_attend cdoc; c_pids := set_pids upd;
           c_files := c_files cdoc; c_assign := Some (a_assign (set_args upd));
           c_classes := Some (a_classes (set_args upd));
           c_teachers := Some (a_teachers (set_args upd)) |} in
      {| st_docs := <[(domainId, cid) := cdoc']> (st_docs st); st_status := st_status st |}
  | None => set_absent st domainId cid upd
  end.

Section postUpdate.
Context `{Host}.
(** The problem catalogue behind [ProblemModel.getList(domainId, pids,
    canViewHidden, true)]: [resolves v pid] tells whether problem [pid]
    resolves for a viewer with [canViewHidden = v]; the call throws when
    one of the ids does not.  Catalogue ids are integers. *)
Variable resolves : bool + Z → Z → bool.
Variable set_absent : Store → string → ObjectId → Update → Store.
Variables (user : User) (st : Store) (domainId : string) (cid : option ObjectId).
Variables (title content _pids : jsstring).
Variables (beginAtDate beginAtTime endAtDate endAtTime : jsstring).
Variable args : Args.
Variable newId : ObjectId.

(** [hasPerm(PERM_VIEW_PROBLEM_HIDDEN) || this.user._id] *)
Definition canViewHidden : bool + Z :=
  if hasPerm user PERM_VIEW_PROBLEM_HIDDEN then inl true else inr (u_id user).

Definition getList_ok (pids : list JSNumber) : bool :=
  forallb (λ p, from_option (resolves canViewHidden) false (as_integer p)) pids.

(** The body of [postUpdate], on the arguments the decorators hand it. *)
Definition postUpdate_body : Result ObjectId * Store :=
  let pids := parse_pids _pids in
  let beginAt := Date_of_string (beginAtDate ++ space :: beginAtTime) in
  let endAt := Date_of_string (endAtDate ++ space :: endAtTime) in
  match beginAt with
  | None => (Throw (ValidationError ["beginAtDate"; "beginAtTime"]%string), st)
  | Some b =>
  match endAt with
  | None => (Throw (ValidationError ["endAtDate"; "endAtTime"]%string), st)
  | Some e =>
      if bool_decide (e ≤ b)
      then (Throw (ValidationError ["endAtDate"; "endAtTime"]%string), st)
      else if negb (bool_decide (length pids = 0%nat)) && negb (getList_ok pids)
      then (Throw ProblemNotFoundError, st)
      else
        let ids := omap as_integer pids in
        match cid with
        | None =>
            (Ok newId, add st domainId title content (u_id user) ids b e args newId)
        | Some c =>
            (Ok c, edit set_absent st domainId c (mkUpdate title content ids b e args))
        end
  end
  end.

End postUpdate.

(** The values submitted with a [postUpdate] request, one for each
    declared parameter. *)
Record Request := mkRequest {
  q_cid : Submitted ObjectId;                (* Types.ObjectId, optional *)
  q_title : Submitted jsstring;              (* Types.Title *)
  q_content : Submitted jsstring;            (* Types.Content *)
  q_pids : Submitted jsstring;               (* Types.Content, optional *)
  q_beginAtDate : Submitted jsstring;        (* Types.Date *)
  q_beginAtTime : Submitted jsstring;        (* Types.Time *)
  q_endAtDate : Submitted jsstring;          (* Types.Date *)
  q_endAtTime : Submitted jsstring;          (* Types.Time *)
  q_maintainer : Submitted (list Z);         (* Types.NumericArray, optional *)
  q_teachers : Submitted (list Z);           (* Types.NumericArray, optional *)
  q_assign : Submitted (list string);        (* Types.CommaSeperatedArray, optional *)
  q_classes : Submitted (list string)        (* Types.CommaSeperatedArray, optional *)
}.

(** The arguments of [postUpdate], with the defaults of its signature. *)
Record Params := mkParams {
  p_cid : option ObjectId;
  p_title : jsstring;
  p_content : jsstring;
  p_pids : jsstring;
  p_beginAtDate : jsstring;
  p_beginAtTime : jsstring;
  p_endAtDate : jsstring;
  p_endAtTime : jsstring;
  p_args : Args
}.

(** The decorators of [postUpdate], in the order of their declaration. *)
Definition params (q : Request) : Result Params :=
  cid ← optional "cid" (q_cid q);
  title ← required "title" (q_title q);
  content ← required "content" (q_content q);
  _pids ← optional "pids" (q_pids q);
  beginAtDate ← required "beginAtDate" (q_beginAtDate q);
  beginAtTime ← required "beginAtTime" (q_beginAtTime q);
  endAtDate ← required "endAtDate" (q_endAtDate q);
  endAtTime ← required "endAtTime" (q_endAtTime q);
  maintainer ← optional "maintainer" (q_maintainer q);
  teachers ← optional "teachers" (q_teachers q);
  assign ← optional "assign" (q_assign q);
  classes ← optional "classes" (q_classes q);
  Ok {| p_cid := cid; p_title := title; p_content := content;
        p_pids := default [] _pids;
        p_beginAtDate := beginAtDate; p_beginAtTime := beginAtTime;
        p_endAtDate := endAtDate; p_endAtTime := endAtTime;
        p_args := {| a_maintainer := default [] maintainer;
                     a_teachers := default [] teachers;
                     a_assign := default [] assign;
                     a_classes := default [] classes |} |}.

(** [postUpdate]: the decorated method.  A parameter that fails its
    check ends the request before the body runs. *)
Definition postUpdate `{Host} (resolves : bool + Z → Z → bool)
    (set_absent : Store → string → ObjectId → Update → Store)
    (user : User) (st : Store) (domainId : string) (q : Request) (newId : ObjectId)
    : Result ObjectId * Store :=
  match params q with
  | Throw e => (Throw e, st)
  | Ok p =>
      postUpdate_body resolves set_absent user st domainId (p_cid p) (p_title p)
        (p_content p) (p_pids p) (p_beginAtDate p) (p_beginAtTime p)
        (p_endAtDate p) (p_endAtTime p) (p_args p) newId
  end.

(** [prepare]: who may create or change a course.  [this.cdoc] is the
    result. *)
Definition prepare (user : User) (st : Store) (domainId : string) (cid : option ObjectId)
    : Result (option CourseDoc) :=
  match cid with
  | Some c =>
      match CourseModel.get st domainId c with
      | None => Throw CourseNotFoundError
      | Some cdoc =>
          match (if negb (own user cdoc) then checkPerm user PERM_EDIT_HOMEWORK
                 else checkPerm user PERM_EDIT_HOMEWORK_SELF) with
          | Throw e => Throw e
          | Ok _ => Ok (Some cdoc)
          end
      end
  | None =>
      match checkPerm user PERM_CREATE_HOMEWORK with
      | Throw e => Throw e
      | Ok _ => Ok None
      end
  end.

(** [a.join(',')] on an array of strings. *)
Fixpoint join_commas (l : list jsstring) : jsstring :=
  match l with
  | [] => []
  | [x] => x
  | x :: rest => x ++ comma :: join_commas rest
  end.

(** [get], the field [pids] of the form: [this.cdoc.pids.join(',')], or
    the empty string without a course.  [toString] is the runtime's
    conversion of a number to text. *)
Definition get_pids (toString : Z → jsstring) (cdoc : option CourseDoc) : jsstring :=
  match cdoc with
  | Some c => join_commas (toString <$> c_pids c)
  | None => []
  end.

Section postDelete.
(** The blob store and its [del(paths, uid)]; a path is
    [course/${domainId}/${cid}/${name}]. *)
Variable Storage : Type.
Variable del : Storage → list (string * ObjectId * string) → Z → Storage.

Definition postDelete (user : User) (cdoc : CourseDoc) (st : Store) (blobs : Storage)
    (domainId : string) (cid : ObjectId) : Result () * Store * Storage :=
  match (if negb (own user cdoc) then checkPerm user PERM_EDIT_HOMEWORK else Ok ()) with
  | Throw e => (Throw e, st, blobs)
  | Ok _ =>
      (Ok (), CourseModel.del st domainId cid,
       del blobs ((λ i, (domainId, cid, file_name i)) <$> or_nil (c_files cdoc)) (u_id user))
  end.

End postDelete.

End CourseEditHandler.

(** ** CourseFilesHandler.postUploadFile *)
Module CourseFilesHandler.

(** [SystemModel.get('limit.contest_files')] and
    [SystemModel.get('limit.contest_files_size')]. *)
Record Limits := mkLimits {
  contest_files : Z;
  contest_files_size : Z
}.

(** [this.request.files?.file] *)
Record Upload := mkUpload {
  up_size : Z;
  up_filepath : string
}.

(** What [StorageModel.getMeta] answers. *)
Record Meta := mkMeta {
  m_size : option Z;
  m_lastModified : option Date;
  m_etag : option string
}.

(** [course/${domainId}/${cid}/${filename}] *)
Definition Path : Type := string * ObjectId * string.

Definition set_files (fs : list FileInfo) (cdoc : CourseDoc) : CourseDoc :=
  {| c_docId := c_docId cdoc; c_domainId := c_domainId cdoc; c_owner := c_owner cdoc;
     c_maintainer := c_maintainer cdoc; c_title := c_title cdoc;
     c_content := c_content cdoc; c_beginAt := c_beginAt cdoc; c_endAt := c_endAt cdoc;
     c_attend := c_attend cdoc; c_pids := c_pids cdoc; c_files := Some fs;
     c_assign := c_assign cdoc; c_classes := c_classes cdoc;
     c_teachers := c_teachers cdoc |}.

(** [CourseModel.edit(domainId, cid, { files })], on the course that
    [prepare] loaded. *)
Definition edit_files (st : Store) (domainId : string) (cid : ObjectId)
    (fs : list FileInfo) : Store :=
  {| st_docs := alter (set_files fs) (domainId, cid) (st_docs st);
     st_status := st_status st |}.

(** [(files || []).reduce((acc, i) => acc + (i.size || 0), 0)] *)
Definition total_size (fs : list FileInfo) : Z :=
  foldl (λ acc i, acc + or_zero (default 0 (file_size i))) 0 fs.

Section postUploadFile.
(** The blob store, with its two operations used here. *)
Variable Storage : Type.
Variable put : Storage → Path → Upload → Z → Storage.
Variable getMeta : Storage → Path → option Meta.

Variable limits : Limits.
Variables (user : User) (cdoc : CourseDoc).

Definition postUploadFile (st : Store) (blobs : Storage) (domainId : string)
    (cid : ObjectId) (filename : string) (file : option Upload)
    : Result () * Store * Storage :=
  if bool_decide (contest_files limits ≤ Z.of_nat (length (or_nil (c_files cdoc))))
  then (Throw (FileLimitExceededError QuotaCount), st, blobs)
  else match file with
  | None => (Throw (ValidationError ["file"%string]), st, blobs)
  | Some f =>
      let size := total_size (or_nil (c_files cdoc)) + up_size f in
      if bool_decide (contest_files_size limits ≤ size)
      then (Throw (FileLimitExceededError QuotaSize), st, blobs)
      else
        let path := (domainId, cid, filename) in
        let blobs' := put blobs path f (u_id user) in
        match getMeta blobs' path with
        | None => (Throw FileUploadError, st, blobs')
        | Some meta =>
            let payload :=
              {| file_id := filename; file_name := filename; file_size := m_size meta;
                 file_lastModified := m_lastModified meta; file_etag := m_etag meta |} in
            (Ok (), edit_files st domainId cid (or_nil (c_files cdoc) ++ [payload]), blobs')
        end
  end.

End postUploadFile.

(** [prepare]: who may manage the attachments of a course. *)
Definition prepare (user : User) (st : Store) (domainId : string) (cid : ObjectId)
    : Result CourseDoc :=
  match CourseModel.get st domainId cid with
  | None => Throw CourseNotFoundError
  | Some cdoc =>
      match (if negb (own user cdoc)
                && negb (bool_decide (u_id user ∈ or_nil (c_teachers cdoc)))
             then checkPerm user PERM_EDIT_HOMEWORK
             else checkPerm user PERM_EDIT_HOMEWORK_SELF) with
      | Throw e => Throw e
      | Ok _ => Ok cdoc
      end
  end.

(** [this.cdoc.files?.filter((i) => !files.includes(i.name))] *)
Definition remaining (cdoc : CourseDoc) (names : list string) : option (list FileInfo) :=
  filter (λ i, file_name i ∉ names) <$> c_files cdoc.

Section postDeleteFiles.
Variable Storage : Type.
Variable del : Storage → list Path → Z → Storage.
(** [CourseModel.edit(domainId, cid, { files: undefined })], what the
    store makes of it. *)
Variable edit_files_undefined : Store → string → ObjectId → Store.

(** The deletion of the blobs and the update of the list are issued
    together; they touch different stores. *)
Definition postDeleteFiles (user : User) (cdoc : CourseDoc) (st : Store) (blobs : Storage)
    (domainId : string) (cid : ObjectId) (names : list string) : Store * Storage :=
  (match remaining cdoc names with
   | Some fs => edit_files st domainId cid fs
   | None => edit_files_undefined st domainId cid
   end,
   del blobs ((λ t, (domainId, cid, t)) <$> names) (u_id user)).

End postDeleteFiles.

End CourseFilesHandler.

(** ** CourseFileDownloadHandler.get *)
Module CourseFileDownloadHandler.

Section get.
(** [StorageModel.signDownloadLink(target, filename, noExpire, useAlternativeEndpointFor)] *)
Variable Link : Type.
Variable signDownloadLink : string * ObjectId * string → option string → bool → string → Link.

Definition get (st : Store) (domainId : string) (cid : ObjectId) (filename : string)
    (noDisposition : bool) : Result Link :=
  match CourseModel.get st domainId cid with
  | None => Throw CourseNotFoundError
  | Some _ =>
      Ok (signDownloadLink (domainId, cid, filename)
            (if noDisposition then None else Some filename) false "user"%string)
  end.

End get.

End CourseFileDownloadHandler.

(** ** CourseScoreboardHandler.get *)
Module CourseScoreboardHandler.

Record Row := mkRow {
  row_uid : Z;
  row_scores : gmap Z Z;
  row_totalScore : Z
}.

(** [(csdoc.journal || []).find((j) => j.pid === pid)] *)
Definition progress (csdoc : CourseStatusDoc) (pid : Z) : option JournalEntry :=
  List.find (λ j, bool_decide (j_pid j = pid)) (or_nil (s_journal csdoc)).

(** [progress?.score || 0] *)
Definition progress_score (csdoc : CourseStatusDoc) (pid : Z) : Z :=
  match progress csdoc pid with
  | Some j => or_zero (j_score j)
  | None => 0
  end.

(** One iteration of [for (const pid of cdoc.pids)]. *)
Definition row_step (csdoc : CourseStatusDoc) (row : Row) (pid : Z) : Row :=
  {| row_uid := row_uid row;
     row_scores := <[pid := progress_score csdoc pid]> (row_scores row);
     row_totalScore := row_totalScore row + progress_score csdoc pid |}.

Definition make_row (cdoc : CourseDoc) (csdoc : CourseStatusDoc) : Row :=
  foldl (row_step csdoc)
        {| row_uid := s_uid csdoc; row_scores := ∅; row_totalScore := 0 |}
        (c_pids cdoc).

(** [rows.sort((a, b) => b.totalScore - a.totalScore)]: the sort is
    stable, larger totals first; rows with equal totals keep their
    order.  [insert_row a l] puts [a] in front of the first [b] for which
    the comparator does not ask for [b] first. *)
Fixpoint insert_row (a : Row) (l : list Row) : list Row :=
  match l with
  | [] => [a]
  | b :: l' =>
      if bool_decide (row_totalScore b - row_totalScore a ≤ 0)
      then a :: b :: l'
      else b :: insert_row a l'
  end.

Definition sort_rows (l : list Row) : list Row := foldr insert_row [] l.

Definition rows (cdoc : CourseDoc) (csdocs : list CourseStatusDoc) : list Row :=
  sort_rows (make_row cdoc <$> csdocs).

End CourseScoreboardHandler.

(** ** apply: the routes

    [ctx.Route(name, path, Handler, perm)] registers a handler under a
    name, with the permission the platform asks of every request to the
    route; the two routes of [CourseEditHandler] are registered with
    none. *)
Module Routes.

Inductive Name :=
| course_main
| course_create
| course_detail
| course_edit
| course_files
| course_file_download
| course_scoreboard
| course_records.

Definition perm (r : Name) : option PERM :=
  match r with
  | course_main => Some PERM_VIEW_HOMEWORK
  | course_create => None
  | course_detail => Some PERM_VIEW_HOMEWORK
  | course_edit => None
  | course_files => Some PERM_VIEW_HOMEWORK
  | course_file_download => Some PERM_VIEW_HOMEWORK
  | course_scoreboard => Some PERM_VIEW_HOMEWORK_SCOREBOARD
  | course_records => Some PERM_VIEW_HOMEWORK
  end.

(** Modelled from the spec (a course is visible to those with the base
    view permission): the platform checks the permission of the route,
    when there is one, before it calls [prepare] of the handler. *)
Definition enter {A} (user : User) (r : Name) (prepare : Result A) : Result A :=
  match perm r with
  | Some p => _ ← checkPerm user p; prepare
  | None => prepare
  end.

End Routes.

(** ** Sample data *)
Module Sample.

(** 2024-01-01, 2024-01-31 and 2024-02-01, 00:00 UTC. *)
Definition jan01 : Date := 1704067200000.
Definition jan31 : Date := 1706659200000.
Definition feb01 : Date := 1706745600000.

Definition course : CourseDoc :=
  {| c_docId := 1%N; c_domainId := "system"; c_owner := 2; c_maintainer := Some [];
     c_title := js "Algorithms"; c_content := js "Weekly exercises";
     c_beginAt := jan01; c_endAt := jan31; c_attend := 0; c_pids := [1];
     c_files := None; c_assign := Some []; c_classes := Some [];
     c_teachers := Some [] |}.

Definition with_pids (pids : list Z) (cdoc : CourseDoc) : CourseDoc :=
  {| c_docId := c_docId cdoc; c_domainId := c_domainId cdoc; c_owner := c_owner cdoc;
     c_maintainer := c_maintainer cdoc; c_title := c_title cdoc;
     c_content := c_content cdoc; c_beginAt := c_beginAt cdoc; c_endAt := c_endAt cdoc;
     c_attend := c_attend cdoc; c_pids := pids; c_files := c_files cdoc;
     c_assign := c_assign cdoc; c_classes := c_classes cdoc;
     c_teachers := c_teachers cdoc |}.

(** A student (user 7) who scored 100 on problem 1 and then resubmitted
    for 40. *)
Definition first_try : JournalEntry := mkJournalEntry 1 101%N 100 1.
Definition second_try : JournalEntry := mkJournalEntry 1 102%N 40 1.

Definition student : CourseStatusDoc :=
  {| s_docId := 1%N; s_domainId := "system"; s_uid := 7; s_enroll := Some 1;
     s_attend := Some 1; s_startAt := Some jan01;
     s_journal := Some [first_try; second_try] |}.

(** A user with every permission but the one to see hidden courses, who
    owns what the platform says an owner or maintainer owns. *)
Definition member (uid : Z) : User :=
  {| u_id := uid;
     hasPerm := λ p, match p with PERM_VIEW_HIDDEN_HOMEWORK => false | _ => true end;
     own := λ cdoc, bool_decide (c_owner cdoc = uid ∨ uid ∈ or_nil (c_maintainer cdoc)) |}.

Definition store : Store :=
  {| st_docs := {[ ("system"%string, 1%N) := course ]}; st_status := ∅ |}.

(** The course with two attachments, of 600 and 300 bytes. *)
Definition with_files (fs : list FileInfo) (cdoc : CourseDoc) : CourseDoc :=
  CourseFilesHandler.set_files fs cdoc.

Definition two_files : list FileInfo :=
  [ mkFileInfo "a.pdf" "a.pdf" (Some 600) None None;
    mkFileInfo "b.pdf" "b.pdf" (Some 300) None None ].

(** A blob store that keeps what was put, newest first. *)
Definition Blobs : Type := list (CourseFilesHandler.Path * CourseFilesHandler.Meta).

Definition blob_put (b : Blobs) (path : CourseFilesHandler.Path)
    (f : CourseFilesHandler.Upload) (uid : Z) : Blobs :=
  (path, CourseFilesHandler.mkMeta (Some (CourseFilesHandler.up_size f)) None None) :: b.

Definition blob_getMeta (b : Blobs) (path : CourseFilesHandler.Path)
    : option CourseFilesHandler.Meta :=
  snd <$> List.find (λ e, bool_decide (fst e = path)) b.

(** A course assigned to group B whose legacy class list names group A,
    and a course without an [assign] field. *)
Definition class_course : CourseDoc :=
  {| c_docId := 2%N; c_domainId := "system"; c_owner := 2; c_maintainer := None;
     c_title := js "Geometry"; c_content := [];
     c_beginAt := jan01; c_endAt := jan31; c_attend := 0; c_pids := [];
     c_files := None; c_assign := Some ["B"%string]; c_classes := Some ["A"%string];
     c_teachers := None |}.

Definition unassigned_course : CourseDoc :=
  {| c_docId := 3%N; c_domainId := "system"; c_owner := 2; c_maintainer := None;
     c_title := js "Logic"; c_content := [];
     c_beginAt := jan01; c_endAt := jan31; c_attend := 0; c_pids := [];
     c_files := None; c_assign := None; c_classes := None; c_teachers := None |}.

(** Every user is in group A only. *)
Definition group_A : option Z → list string := λ _, ["A"%string].

(** A catalogue in which problem 1 is the only problem. *)
Definition only_problem_1 : bool + Z → Z → bool := λ _ pid, bool_decide (pid = 1).

Definition no_args : CourseEditHandler.Args := CourseEditHandler.mkArgs [] [] [] [].

(** A title of two lines, "ab" and "cd". *)
Definition two_lines : jsstring := js "ab" ++ [10%N] ++ js "cd".

(** Three simultaneous calls of [attend] for user 7 on the sample
    course, and where one of their executions ends: the second call wins
    the conditional write, the other two are refused, the winner
    increments the counter. *)
Definition race_start : Enroll.Config := Enroll.init store [jan01; jan01 + 1; jan01 + 2].

Definition race_end : Enroll.Config :=
  let st1 := default store
               (DocumentModel.setIfNotStatus store "system" 1%N 7 1 1 1 (jan01 + 1)) in
  Enroll.mkConfig (DocumentModel.inc st1 "system" 1%N 1)
                  [Enroll.Thrown; Enroll.Returned; Enroll.Thrown].

Definition blob_del (b : Blobs) (paths : list CourseFilesHandler.Path) (uid : Z) : Blobs :=
  filter (λ e, e.1 ∉ paths) b.

(** A store that ignores an update of [files] to [undefined]. *)
Definition ignore_undefined : Store → string → ObjectId → Store := λ st _ _, st.

Definition upload : CourseFilesHandler.Upload := CourseFilesHandler.mkUpload 100 "/tmp/upload".

Definition limits : CourseFilesHandler.Limits := CourseFilesHandler.mkLimits 5 1000.

(** The decimal text of an integer, as [Number.prototype.toString] gives
    it. *)
Definition decimal (z : Z) : jsstring := js (NilZero.string_of_int (Z.to_int z)).

(** The sample course with the problems 1, 25 and 1000. *)
Definition three_problems : CourseDoc := with_pids [1; 25; 1000] course.

(** The owner of the sample course, allowed to edit courses of their own
    only. *)
Definition self_editor : User :=
  {| u_id := 2;
     hasPerm := λ p, match p with PERM_EDIT_HOMEWORK_SELF => true | _ => false end;
     own := λ cdoc, bool_decide (c_owner cdoc = 2 ∨ 2 ∈ or_nil (c_maintainer cdoc)) |}.

(** A user who may look at courses and nothing else. *)
Definition guest (uid : Z) : User :=
  {| u_id := uid;
     hasPerm := λ p, match p with PERM_VIEW_HOMEWORK => true | _ => false end;
     own := λ cdoc, bool_decide (c_owner cdoc = uid ∨ uid ∈ or_nil (c_maintainer cdoc)) |}.

(** A user with every permission, the one to see hidden courses
    included. *)
Definition inspector (uid : Z) : User :=
  {| u_id := uid;
     hasPerm := λ _, true;
     own := λ cdoc, bool_decide (c_owner cdoc = uid ∨ uid ∈ or_nil (c_maintainer cdoc)) |}.

(** The form of a new course, filled in with a problem list and a time
    range; no maintainers, teachers, groups or classes are submitted. *)
Definition creation (pids beginAtDate beginAtTime endAtDate endAtTime : string)
    : CourseEditHandler.Request :=
  CourseEditHandler.mkRequest Absent (Accepted (js "Algebra"))
    (Accepted (js "Groups and rings")) (Accepted (js pids))
    (Accepted (js beginAtDate)) (Accepted (js beginAtTime))
    (Accepted (js endAtDate)) (Accepted (js endAtTime))
    Absent Absent Absent Absent.

(** A store that ignores an update of a document it does not hold. *)
Definition ignore_absent
    : Store → string → ObjectId → CourseEditHandler.Update → Store :=
  λ st _ _ _, st.

End Sample.

(** * Vocabulary of the properties *)

(** The journal entries of one problem, in append order. *)
Definition entries_of (pid : Z) (journal : list JournalEntry) : list JournalEntry :=
  filter (λ j, j_pid j = pid) journal.

(** The score of the effective entry of a problem as the specification
    defines it: that of the last journal entry of the problem, 0 when
    there is none. *)
Definition effective_score (csdoc : CourseStatusDoc) (pid : Z) : Z :=
  from_option j_score 0 (last (entries_of pid (or_nil (s_journal csdoc)))).

(** The declared size of an attachment, 0 when it has none. *)
Definition declared_size (i : FileInfo) : Z := default 0 (file_size i).

(** Some group of the list [field] is one of [gs]. *)
Definition shares_group (gs : list string) (field : option (list string)) : Prop :=
  ∃ g, g ∈ or_nil field ∧ g ∈ gs.

(** The courses the specification lists for a viewer: the six grants of
    its visibility contract, the assigned-group set of a course being the
    content of [assign]. *)
Definition listed_as_specified (uid : Z) (gs : list string) (group : string)
    (cdoc : CourseDoc) : Prop :=
  c_owner cdoc = uid
  ∨ uid ∈ or_nil (c_maintainer cdoc)
  ∨ uid ∈ or_nil (c_teachers cdoc)
  ∨ shares_group gs (c_assign cdoc)
  ∨ or_nil (c_assign cdoc) = []
  ∨ (group ≠ EmptyString
     ∧ (group ∈ or_nil (c_assign cdoc) ∨ group ∈ or_nil (c_classes cdoc))).

(** The courses the filter selects: the grants above, with [assign]
    present and empty for the public ones, and one more grant, a class of
    the course being a group of the viewer. *)
Definition listed (uid : Z) (gs : list string) (group : string)
    (cdoc : CourseDoc) : Prop :=
  c_owner cdoc = uid
  ∨ uid ∈ or_nil (c_maintainer cdoc)
  ∨ uid ∈ or_nil (c_teachers cdoc)
  ∨ shares_group gs (c_assign cdoc)
  ∨ shares_group gs (c_classes cdoc)
  ∨ c_assign cdoc = Some []
  ∨ (group ≠ EmptyString
     ∧ (group ∈ or_nil (c_assign cdoc) ∨ group ∈ or_nil (c_classes cdoc))).

(** Two texts that the pattern engine does not tell apart under flag [i]. *)
Definition ci_equal `{Host} (s t : jsstring) : Prop := canonicalize <$> s = canonicalize <$> t.

(** [pre] ends where a line starts. *)
Definition line_start_after `{Host} (pre : jsstring) : Prop :=
  pre = [] ∨ ∃ p, last pre = Some p ∧ lineTerminator p = true.

Definition starts_with `{Host} (needle text : jsstring) : Prop :=
  ∃ mid post, text = mid ++ post ∧ ci_equal needle mid.

Definition occurs_in `{Host} (needle text : jsstring) : Prop :=
  ∃ pre, ∃ rest, text = pre ++ rest ∧ starts_with needle rest.

Definition starts_a_line_of `{Host} (needle text : jsstring) : Prop :=
  ∃ pre, ∃ rest, text = pre ++ rest ∧ line_start_after pre ∧ starts_with needle rest.

(** Rows in the order of the scoreboard: no row below a row of smaller
    total. *)
Definition by_total_desc (a b : CourseScoreboardHandler.Row) : Prop :=
  CourseScoreboardHandler.row_totalScore b ≤ CourseScoreboardHandler.row_totalScore a.

(** The grants under which [CourseDetailHandler.prepare] opens a course
    to a viewer whose groups are [gs]. *)
Definition may_open (user : User) (gs : list string) (cdoc : CourseDoc) : Prop :=
  c_assign cdoc = None
  ∨ c_assign cdoc = Some []
  ∨ own user cdoc = true
  ∨ hasPerm user PERM_VIEW_HIDDEN_HOMEWORK = true
  ∨ shares_group gs (c_assign cdoc)
  ∨ shares_group gs (c_classes cdoc)
  ∨ u_id user ∈ or_nil (c_teachers cdoc).

(** The entry of the attachment list for a file stored under [filename]
    with the metadata [meta]. *)
Definition payload_of (filename : string) (meta : CourseFilesHandler.Meta) : FileInfo :=
  {| file_id := filename; file_name := filename;
     file_size := CourseFilesHandler.m_size meta;
     file_lastModified := CourseFilesHandler.m_lastModified meta;
     file_etag := CourseFilesHandler.m_etag meta |}.

(** * Properties *)

(** ** The course phases *)

Section phases.
Import CourseModel.

Lemma isNotStarted_spec cdoc now : isNotStarted cdoc now = true ↔ now < c_beginAt cdoc.
Proof. unfold isNotStarted. lia. Qed.

Lemma isOngoing_spec cdoc now :
  isOngoing cdoc now = true ↔ c_beginAt cdoc ≤ now < c_endAt cdoc.
Proof. unfold isOngoing. rewrite andb_true_iff. lia. Qed.

Lemma isDone_spec cdoc now : isDone cdoc now = true ↔ c_endAt cdoc ≤ now.
Proof. unfold isDone. lia. Qed.

(** C10: for a course with [beginAt < endAt] and any instant, exactly one
    of [isNotStarted], [isOngoing] and [isDone] answers true; the instant
    [beginAt] is in the ongoing phase and [endAt] in the done phase. *)
Theorem phases_partition cdoc now :
  c_beginAt cdoc < c_endAt cdoc →
  ( (isNotStarted cdoc now = true ∧ isOngoing cdoc now = false ∧ isDone cdoc now = false)
    ∨ (isNotStarted cdoc now = false ∧ isOngoing cdoc now = true ∧ isDone cdoc now = false)
    ∨ (isNotStarted cdoc now = false ∧ isOngoing cdoc now = false ∧ isDone cdoc now = true) )
  ∧ (isNotStarted cdoc now = true ↔ now < c_beginAt cdoc)
  ∧ (isOngoing cdoc now = true ↔ c_beginAt cdoc ≤ now < c_endAt cdoc)
  ∧ (isDone cdoc now = true ↔ c_endAt cdoc ≤ now)
  ∧ isOngoing cdoc (c_beginAt cdoc) = true
  ∧ isDone cdoc (c_endAt cdoc) = true.
Proof.
  intros Hlt.
  split; [|split_and!; auto using isNotStarted_spec, isOngoing_spec, isDone_spec].
  - unfold isNotStarted, isOngoing, isDone.
    destruct (Z.ltb_spec now (c_beginAt cdoc)), (Z.leb_spec (c_beginAt cdoc) now),
      (Z.ltb_spec now (c_endAt cdoc)), (Z.leb_spec (c_endAt cdoc) now);
      simpl; try lia; auto.
  - apply isOngoing_spec. lia.
  - apply isDone_spec. lia.
Qed.

Lemma phases_partition_witness :
  c_beginAt Sample.course < c_endAt Sample.course ∧
  isOngoing Sample.course (c_beginAt Sample.course) = true ∧
  isDone Sample.course (c_endAt Sample.course) = true.
Proof.
  assert (Hlt : c_beginAt Sample.course < c_endAt Sample.course) by (vm_compute; reflexivity).
  split; [exact Hlt|].
  pose proof (phases_partition Sample.course Sample.feb01 Hlt) as (_ & _ & _ & _ & Ho & Hd).
  split; assumption.
Defined.

End phases.

(** ** Enrolling in a course that has ended *)

Section postAttend.
Import CourseModel CourseDetailHandler.

Lemma attend_not_ended st domainId cid uid now fields :
  (attend st domainId cid uid now).1 ≠ Throw (ValidationError fields).
Proof. unfold attend. by destruct (DocumentModel.setIfNotStatus _ _ _ _ _ _ _ _). Qed.

(** C7, as the handler behaves: the course counts as ended exactly when
    [endAt <= now].  On an ended course the enroll attempt of a user who
    may attend fails with 'Course has ended' and the attempt of a user
    who may not fails on the permission check; either way
    [CourseModel.attend] does not run and the store comes back as it
    was.  On a course that has not ended the attempt of a user who may
    attend is the call of [CourseModel.attend], which never answers
    'Course has ended'. *)
Theorem postAttend_ended user cdoc st domainId cid now now' :
  (isDone cdoc now = true ↔ c_endAt cdoc ≤ now)
  ∧ (c_endAt cdoc ≤ now →
     (hasPerm user PERM_ATTEND_HOMEWORK = true →
      postAttend user cdoc st domainId cid now now'
      = (Throw (ValidationError ["Course has ended"%string]), st))
     ∧ (hasPerm user PERM_ATTEND_HOMEWORK = false →
        postAttend user cdoc st domainId cid now now'
        = (Throw (PermissionError PERM_ATTEND_HOMEWORK), st)))
  ∧ (now < c_endAt cdoc →
     hasPerm user PERM_ATTEND_HOMEWORK = true →
     postAttend user cdoc st domainId cid now now'
     = attend st domainId cid (u_id user) now'
     ∧ ∀ fields, (postAttend user cdoc st domainId cid now now').1
                 ≠ Throw (ValidationError fields)).
Proof.
  split_and!.
  - apply isDone_spec.
  - intros Hdone%isDone_spec. unfold postAttend, checkPerm. rewrite Hdone.
    split; intros ->; done.
  - intros Hnow Hperm.
    assert (Hdone : isDone cdoc now = false).
    { apply not_true_iff_false. rewrite isDone_spec. lia. }
    unfold postAttend, checkPerm. rewrite Hperm, Hdone.
    split; [done|]. intros fields. apply attend_not_ended.
Qed.

(** The scenario of the specification: the course ends on 2024-01-31 and
    the attempt is made on 2024-02-01. *)
Lemma postAttend_ended_witness :
  c_endAt Sample.course = Sample.jan31 ∧
  postAttend (Sample.member 7) Sample.course Sample.store "system" 1%N
             Sample.feb01 Sample.feb01
  = (Throw (ValidationError ["Course has ended"%string]), Sample.store).
Proof.
  split; [reflexivity|].
  pose proof (postAttend_ended (Sample.member 7) Sample.course Sample.store
                "system" 1%N Sample.feb01 Sample.feb01) as (_ & Hended & _).
  apply Hended; [vm_compute; discriminate|reflexivity].
Defined.

(** The same attempt by a user who may not attend: it fails, but not
    with 'Course has ended'. *)
Lemma postAttend_ended_counterexample :
  c_endAt Sample.course ≤ Sample.feb01
  ∧ postAttend (Sample.guest 7) Sample.course Sample.store "system" 1%N
               Sample.feb01 Sample.feb01
    = (Throw (PermissionError PERM_ATTEND_HOMEWORK), Sample.store)
  ∧ (postAttend (Sample.guest 7) Sample.course Sample.store "system" 1%N
                Sample.feb01 Sample.feb01).1
    ≠ Throw (ValidationError ["Course has ended"%string]).
Proof. split_and!; [vm_compute; discriminate|reflexivity|discriminate]. Qed.

End postAttend.

(** ** Progress and the scoreboard *)

Section progress.
Import CourseDetailHandler CourseScoreboardHandler.

Lemma psdict_of_snoc entries x :
  psdict_of (entries ++ [x]) = <[j_pid x := x]> (psdict_of entries).
Proof. unfold psdict_of. by rewrite foldl_snoc. Qed.

Lemma psdict_of_lookup entries pid :
  psdict_of entries !! pid = last (entries_of pid entries).
Proof.
  unfold entries_of.
  induction entries as [|x entries IH] using rev_ind; [done|].
  rewrite psdict_of_snoc, filter_app, filter_cons, filter_nil.
  destruct (decide (j_pid x = pid)) as [Heq|Hne].
  - rewrite Heq, lookup_insert_eq. by rewrite last_snoc.
  - rewrite lookup_insert_ne by done. by rewrite app_nil_r.
Qed.

(** X2: the student's own progress for a listed problem is the last
    journal entry of that problem. *)
Lemma psdict_last cdoc csdoc pid :
  pid ∈ c_pids cdoc →
  psdict cdoc (Some csdoc) !! pid = last (entries_of pid (or_nil (s_journal csdoc))).
Proof.
  intros Hin. simpl. rewrite psdict_of_lookup. unfold entries_of, valid.
  rewrite list_filter_filter. f_equal. apply list_filter_iff.
  intros j. split; [tauto|]. intros <-. done.
Qed.

Lemma psdict_last_witness :
  psdict Sample.course (Some Sample.student) !! 1 = Some Sample.second_try.
Proof.
  rewrite (psdict_last Sample.course Sample.student 1).
  - reflexivity.
  - apply list_elem_of_singleton. reflexivity.
Defined.

Lemma psdict_unlisted cdoc csdoc pid :
  pid ∉ c_pids cdoc → psdict cdoc csdoc !! pid = None.
Proof.
  intros Hnin. destruct csdoc as [cs|]; [|done]. simpl.
  rewrite psdict_of_lookup. unfold entries_of, valid. rewrite list_filter_filter.
  replace (filter _ _) with (@nil JournalEntry); [done|].
  symmetry. induction (or_nil (s_journal cs)) as [|j l IH]; [done|].
  rewrite filter_cons_False; [done|]. intros [<- ?]. done.
Qed.

(** The scoreboard takes the first journal entry of the problem. *)
Lemma progress_first csdoc pid :
  progress csdoc pid = head (entries_of pid (or_nil (s_journal csdoc))).
Proof.
  unfold progress, entries_of.
  induction (or_nil (s_journal csdoc)) as [|j l IH]; [done|].
  simpl. rewrite filter_cons.
  destruct (decide (j_pid j = pid)).
  - by rewrite bool_decide_eq_true_2.
  - by rewrite bool_decide_eq_false_2.
Qed.

(** C1: the journal "100, then 40" for problem 1.  The student's own
    progress shows the last entry (40); the scoreboard, which searches
    the journal with [find], shows the first (100). *)
Theorem scoreboard_progress_is_first_entry :
  let journal := or_nil (s_journal Sample.student) in
  journal = [Sample.first_try; Sample.second_try]
  ∧ last (entries_of 1 journal) = Some Sample.second_try
  ∧ psdict Sample.course (Some Sample.student) !! 1 = Some Sample.second_try
  ∧ progress Sample.student 1 = Some Sample.first_try
  ∧ row_scores (make_row Sample.course Sample.student) !! 1 = Some 100
  ∧ row_totalScore (make_row Sample.course Sample.student) = 100.
Proof. vm_compute. split_and!; reflexivity. Qed.

End progress.

Section scoreboard.
Import CourseScoreboardHandler.

Lemma foldl_row_step_total csdoc l row :
  row_totalScore (foldl (row_step csdoc) row l)
  = row_totalScore row + sum_Z (progress_score csdoc <$> l).
Proof.
  revert row. induction l as [|pid l IH]; intros row.
  - unfold sum_Z. simpl. lia.
  - rewrite fmap_cons. simpl foldl. rewrite IH.
    unfold sum_Z, row_step. simpl. lia.
Qed.

Lemma foldl_row_step_scores csdoc l row pid :
  row_scores (foldl (row_step csdoc) row l) !! pid
  = if decide (pid ∈ l) then Some (progress_score csdoc pid) else row_scores row !! pid.
Proof.
  revert row. induction l as [|p l IH]; intros row.
  - destruct (decide (pid ∈ [])) as [Hin|_]; [|done]. by apply elem_of_nil in Hin.
  - simpl foldl. rewrite IH. unfold row_step. simpl row_scores.
    destruct (decide (pid ∈ l)) as [Hin|Hnin], (decide (pid ∈ p :: l)) as [Hin'|Hnin'];
      try done.
    + exfalso. apply Hnin'. by right.
    + apply elem_of_cons in Hin' as [->|?]; [|done]. by rewrite lookup_insert_eq.
    + rewrite lookup_insert_ne; [done|]. intros ->. apply Hnin'. by left.
Qed.

Lemma foldl_row_step_uid csdoc l row :
  row_uid (foldl (row_step csdoc) row l) = row_uid row.
Proof. revert row. induction l as [|p l IH]; intros row; simpl; [done|]. by rewrite IH. Qed.

Lemma make_row_total cdoc csdoc :
  row_totalScore (make_row cdoc csdoc) = sum_Z (progress_score csdoc <$> c_pids cdoc).
Proof. unfold make_row. rewrite foldl_row_step_total. done. Qed.

Lemma sum_Z_app l1 l2 : sum_Z (l1 ++ l2) = sum_Z l1 + sum_Z l2.
Proof.
  induction l1 as [|x l1 IH]; [done|].
  unfold sum_Z in *. simpl. rewrite IH. lia.
Qed.

Lemma insert_row_perm a l : insert_row a l ≡ₚ a :: l.
Proof.
  induction l as [|b l IH]; simpl; [done|].
  case_bool_decide; [done|]. rewrite IH. apply Permutation_swap.
Qed.

Lemma sort_rows_perm l : sort_rows l ≡ₚ l.
Proof.
  induction l as [|a l IH]; simpl; [done|].
  rewrite insert_row_perm. by rewrite IH.
Qed.

Lemma elem_of_rows cdoc csdocs row :
  row ∈ rows cdoc csdocs ↔ ∃ cs, cs ∈ csdocs ∧ row = make_row cdoc cs.
Proof.
  unfold rows. rewrite sort_rows_perm, list_elem_of_fmap.
  split; intros (cs & ? & ?); exists cs; done.
Qed.

(** A journal without an entry for the problem scores 0 on it. *)
Lemma progress_score_none csdoc pid :
  (∀ j, j ∈ or_nil (s_journal csdoc) → j_pid j ≠ pid) → progress_score csdoc pid = 0.
Proof.
  intros Hno. unfold progress_score.
  destruct (progress csdoc pid) as [j|] eqn:Hfind; [|done].
  apply find_some in Hfind as [Hin Hpid].
  apply bool_decide_eq_true in Hpid. apply list_elem_of_In in Hin. by apply Hno in Hin.
Qed.

Lemma find_filter_implied {A} (P : A → bool) (Q : A → Prop) `{∀ x, Decision (Q x)} l :
  (∀ x, P x = true → Q x) →
  List.find P (filter Q l) = List.find P l.
Proof.
  intros HPQ. induction l as [|x l IH]; [done|].
  rewrite filter_cons. simpl. destruct (P x) eqn:HP.
  - rewrite decide_True by auto. simpl. by rewrite HP.
  - destruct (decide (Q x)); simpl; [by rewrite HP|done].
Qed.

Lemma foldl_row_step_ext cs cs' l row :
  (∀ pid, pid ∈ l → progress_score cs pid = progress_score cs' pid) →
  foldl (row_step cs) row l = foldl (row_step cs') row l.
Proof.
  revert row. induction l as [|pid l IH]; intros row Hscore; [done|].
  simpl. unfold row_step at 2 4. rewrite (Hscore pid) by left.
  apply IH. intros p Hp. apply Hscore. by right.
Qed.

(** The row depends on the journal only through the entries of listed
    problems. *)
Lemma make_row_listed_entries cdoc cs cs' :
  s_uid cs = s_uid cs' →
  filter (λ j, j_pid j ∈ c_pids cdoc) (or_nil (s_journal cs))
  = filter (λ j, j_pid j ∈ c_pids cdoc) (or_nil (s_journal cs')) →
  make_row cdoc cs = make_row cdoc cs'.
Proof.
  intros Huid Hfilter. unfold make_row. rewrite Huid.
  apply foldl_row_step_ext. intros pid Hin. unfold progress_score, progress.
  rewrite <- (find_filter_implied _ (λ j, j_pid j ∈ c_pids cdoc) (or_nil (s_journal cs))),
          <- (find_filter_implied _ (λ j, j_pid j ∈ c_pids cdoc) (or_nil (s_journal cs'))).
  - by rewrite Hfilter.
  - intros j Hj. apply bool_decide_eq_true in Hj. by rewrite Hj.
  - intros j Hj. apply bool_decide_eq_true in Hj. by rewrite Hj.
Qed.

(** X1, the aggregation of the scoreboard: every row belongs to an enrolled
    student of the page, and every such student has a row; the row's
    total is the sum, over the course's problem list, of the per-problem
    scores the row shows, a problem without journal entry scoring 0.
    Journal entries of problems outside the list change nothing; taking a
    problem off the list lowers the total by its score; an empty list
    gives total 0. *)
Theorem scoreboard_total cdoc csdocs :
  (∀ row, row ∈ rows cdoc csdocs →
     ∃ cs, cs ∈ csdocs ∧ row_uid row = s_uid cs
       ∧ row_totalScore row = sum_Z (progress_score cs <$> c_pids cdoc)
       ∧ (∀ pid, pid ∈ c_pids cdoc → row_scores row !! pid = Some (progress_score cs pid))
       ∧ (∀ pid, pid ∉ c_pids cdoc → row_scores row !! pid = None))
  ∧ (∀ cs, cs ∈ csdocs → make_row cdoc cs ∈ rows cdoc csdocs)
  ∧ (∀ cs pid, (∀ j, j ∈ or_nil (s_journal cs) → j_pid j ≠ pid) → progress_score cs pid = 0)
  ∧ (∀ cs cs', s_uid cs = s_uid cs' →
       filter (λ j, j_pid j ∈ c_pids cdoc) (or_nil (s_journal cs))
       = filter (λ j, j_pid j ∈ c_pids cdoc) (or_nil (s_journal cs')) →
       make_row cdoc cs = make_row cdoc cs')
  ∧ (∀ cdoc' cs before pid after,
       c_pids cdoc = before ++ pid :: after → c_pids cdoc' = before ++ after →
       row_totalScore (make_row cdoc' cs)
       = row_totalScore (make_row cdoc cs) - progress_score cs pid)
  ∧ (c_pids cdoc = [] → ∀ row, row ∈ rows cdoc csdocs → row_totalScore row = 0).
Proof.
  split_and!.
  - intros row (cs & Hin & ->)%elem_of_rows. exists cs.
    split_and!; [done| |apply make_row_total| |].
    + unfold make_row. by rewrite foldl_row_step_uid.
    + intros pid Hpid. unfold make_row.
      by rewrite foldl_row_step_scores, decide_True.
    + intros pid Hpid. unfold make_row.
      by rewrite foldl_row_step_scores, decide_False.
  - intros cs Hin. apply elem_of_rows. eauto.
  - apply progress_score_none.
  - apply make_row_listed_entries.
  - intros cdoc' cs before pid after Hpids Hpids'.
    rewrite !make_row_total, Hpids, Hpids', !fmap_app, !sum_Z_app, fmap_cons. simpl. lia.
  - intros Hnil row (cs & _ & ->)%elem_of_rows.
    by rewrite make_row_total, Hnil.
Qed.

Lemma scoreboard_total_witness :
  row_totalScore (make_row (Sample.with_pids [] Sample.course) Sample.student)
  = row_totalScore (make_row Sample.course Sample.student)
    - progress_score Sample.student 1.
Proof.
  exact (proj1 (proj2 (proj2 (proj2 (proj2
           (scoreboard_total Sample.course [Sample.student])))))
         (Sample.with_pids [] Sample.course) Sample.student [] 1 [] eq_refl eq_refl).
Defined.

(** The score the scoreboard shows is that of the first entry. *)
Lemma progress_score_first csdoc pid :
  progress_score csdoc pid
  = from_option j_score 0 (head (entries_of pid (or_nil (s_journal csdoc)))).
Proof.
  unfold progress_score. rewrite progress_first.
  destruct (head _) as [j|]; simpl; [|done].
  unfold or_zero. case_bool_decide; lia.
Qed.

(** When the first and the last entry of every listed problem are the
    same entry, the total is the sum of the effective scores. *)
Lemma scoreboard_total_effective cdoc csdoc :
  (∀ pid, pid ∈ c_pids cdoc →
     head (entries_of pid (or_nil (s_journal csdoc)))
     = last (entries_of pid (or_nil (s_journal csdoc)))) →
  row_totalScore (make_row cdoc csdoc) = sum_Z (effective_score csdoc <$> c_pids cdoc).
Proof.
  intros Hsame. rewrite make_row_total. f_equal.
  apply list_fmap_ext. intros _ pid Hpid%list_elem_of_lookup_2.
  rewrite progress_score_first. unfold effective_score. by rewrite Hsame.
Qed.

(** C6: the student who scored 100 and then 40 on problem 1, the only
    problem of the course.  The sum of the effective scores over the
    problem list is 40; the total of the student's row is 100, the score
    of the first entry. *)
Theorem scoreboard_total_of_first_entries :
  c_pids Sample.course = [1]
  ∧ sum_Z (effective_score Sample.student <$> c_pids Sample.course) = 40
  ∧ rows Sample.course [Sample.student] = [make_row Sample.course Sample.student]
  ∧ row_totalScore (make_row Sample.course Sample.student) = 100.
Proof. vm_compute. split_and!; reflexivity. Qed.

End scoreboard.

(** ** The attachment quota *)

Section quota.
Import CourseFilesHandler.
Variable Storage : Type.
Variable put : Storage → Path → Upload → Z → Storage.
Variable getMeta : Storage → Path → option Meta.

Lemma or_zero_id x : or_zero x = x.
Proof. unfold or_zero. case_bool_decide; lia. Qed.

Lemma total_size_sum fs : total_size fs = sum_Z (declared_size <$> fs).
Proof.
  unfold total_size.
  assert (Hacc : ∀ acc, foldl (λ acc i, acc + or_zero (default 0 (file_size i))) acc fs
                        = acc + sum_Z (declared_size <$> fs)).
  { induction fs as [|i fs IH]; intros acc.
    - unfold sum_Z. simpl. lia.
    - rewrite fmap_cons. simpl foldl. rewrite IH, or_zero_id.
      unfold sum_Z, declared_size. simpl. lia. }
  rewrite Hacc. lia.
Qed.

(** C5: an upload to a course whose attachment count is at or above the
    count ceiling is rejected with the count-limit failure; below that
    ceiling, an upload whose size added to the sizes of the attachments
    reaches the size ceiling is rejected with the size-limit failure.
    Either way the store and the blob store come back untouched. *)
Theorem postUploadFile_quota limits user cdoc st blobs domainId cid filename :
  (∀ file,
     contest_files limits ≤ Z.of_nat (length (or_nil (c_files cdoc))) →
     postUploadFile Storage put getMeta limits user cdoc st blobs domainId cid filename file
     = (Throw (FileLimitExceededError QuotaCount), st, blobs))
  ∧ (∀ f,
     Z.of_nat (length (or_nil (c_files cdoc))) < contest_files limits →
     contest_files_size limits
       ≤ sum_Z (declared_size <$> or_nil (c_files cdoc)) + up_size f →
     postUploadFile Storage put getMeta limits user cdoc st blobs domainId cid filename
                    (Some f)
     = (Throw (FileLimitExceededError QuotaSize), st, blobs)).
Proof.
  split.
  - intros file Hcount. unfold postUploadFile.
    by rewrite bool_decide_eq_true_2.
  - intros f Hcount Hsize. unfold postUploadFile.
    rewrite bool_decide_eq_false_2 by lia.
    rewrite total_size_sum. by rewrite bool_decide_eq_true_2.
Qed.

End quota.

(** Two attachments against a ceiling of two; then 600 + 300 bytes and
    an upload of 100 against a ceiling of 1000 bytes. *)
Lemma postUploadFile_quota_witness :
  let cdoc := Sample.with_files Sample.two_files Sample.course in
  let file := CourseFilesHandler.mkUpload 100 "/tmp/upload" in
  CourseFilesHandler.postUploadFile Sample.Blobs Sample.blob_put Sample.blob_getMeta
    (CourseFilesHandler.mkLimits 2 1000) (Sample.member 2) cdoc Sample.store []
    "system" 1%N "c.pdf" (Some file)
  = (Throw (FileLimitExceededError QuotaCount), Sample.store, [])
  ∧ CourseFilesHandler.postUploadFile Sample.Blobs Sample.blob_put Sample.blob_getMeta
    (CourseFilesHandler.mkLimits 5 1000) (Sample.member 2) cdoc Sample.store []
    "system" 1%N "c.pdf" (Some file)
  = (Throw (FileLimitExceededError QuotaSize), Sample.store, []).
Proof.
  intros cdoc file. split.
  - apply (proj1 (postUploadFile_quota Sample.Blobs Sample.blob_put Sample.blob_getMeta
                    (CourseFilesHandler.mkLimits 2 1000) (Sample.member 2) cdoc
                    Sample.store [] "system" 1%N "c.pdf")).
    vm_compute. discriminate.
  - apply (proj2 (postUploadFile_quota Sample.Blobs Sample.blob_put Sample.blob_getMeta
                    (CourseFilesHandler.mkLimits 5 1000) (Sample.member 2) cdoc
                    Sample.store [] "system" 1%N "c.pdf")).
    + vm_compute. reflexivity.
    + vm_compute. discriminate.
Defined.

(** ** The filter of the course list *)

Section list_filter.
Import Filter CourseMainHandler.

Lemma elem_of_Num uid (l : list Z) : Num uid ∈ Num <$> l ↔ uid ∈ l.
Proof.
  rewrite list_elem_of_fmap. split; [|by eauto].
  intros (y & [= ->] & ?). done.
Qed.

Lemma elem_of_Str g (l : list string) : Str g ∈ Str <$> l ↔ g ∈ l.
Proof.
  rewrite list_elem_of_fmap. split; [|by eauto].
  intros (y & [= ->] & ?). done.
Qed.

Lemma holds_owner cdoc uid : holds cdoc (Eq owner (Num uid)) = true ↔ c_owner cdoc = uid.
Proof. simpl. rewrite bool_decide_eq_true. split; [by intros [= ->]|by intros ->]. Qed.

Lemma holds_maintainer cdoc uid :
  holds cdoc (Eq maintainer (Num uid)) = true ↔ uid ∈ or_nil (c_maintainer cdoc).
Proof.
  simpl. destruct (c_maintainer cdoc) as [l|]; simpl.
  - by rewrite bool_decide_eq_true, elem_of_Num.
  - split; [done|]. by intros ?%elem_of_nil.
Qed.

Lemma holds_teachers cdoc uid :
  holds cdoc (Eq teachers (Num uid)) = true ↔ uid ∈ or_nil (c_teachers cdoc).
Proof.
  simpl. destruct (c_teachers cdoc) as [l|]; simpl.
  - by rewrite bool_decide_eq_true, elem_of_Num.
  - split; [done|]. by intros ?%elem_of_nil.
Qed.

Lemma Exists_Str (l gs : list string) :
  Exists (λ w, w ∈ Str <$> gs) (Str <$> l) ↔ ∃ g, g ∈ l ∧ g ∈ gs.
Proof.
  rewrite Exists_exists. split.
  - intros (w & (g & -> & Hg)%list_elem_of_fmap & Hw). exists g.
    split; [done|]. by apply elem_of_Str.
  - intros (g & Hg & Hgs). exists (Str g). by rewrite !elem_of_Str.
Qed.

Lemma holds_in_assign cdoc gs :
  holds cdoc (In assign (Str <$> gs)) = true ↔ shares_group gs (c_assign cdoc).
Proof.
  unfold shares_group. simpl. destruct (c_assign cdoc) as [l|]; simpl.
  - by rewrite bool_decide_eq_true, Exists_Str.
  - split; [done|]. by intros (g & ?%elem_of_nil & _).
Qed.

Lemma holds_in_classes cdoc gs :
  holds cdoc (In classes (Str <$> gs)) = true ↔ shares_group gs (c_classes cdoc).
Proof.
  unfold shares_group. simpl. destruct (c_classes cdoc) as [l|]; simpl.
  - by rewrite bool_decide_eq_true, Exists_Str.
  - split; [done|]. by intros (g & ?%elem_of_nil & _).
Qed.

Lemma shares_group_singleton g field : shares_group [g] field ↔ g ∈ or_nil field.
Proof.
  unfold shares_group. split.
  - intros (g' & Hg' & ->%list_elem_of_singleton). done.
  - intros Hg. exists g. split; [done|]. by apply list_elem_of_singleton.
Qed.

(** [{ assign: { $size: 0 } }] selects the courses whose [assign] is
    present and empty. *)
Lemma holds_size_assign cdoc :
  holds cdoc (Size assign 0) = true ↔ c_assign cdoc = Some [].
Proof.
  simpl. destruct (c_assign cdoc) as [l|]; simpl; [|done].
  rewrite bool_decide_eq_true, length_fmap. split.
  - by intros ->%nil_length_inv.
  - by intros [= ->].
Qed.

Lemma has_group_true group : has_group group = true ↔ group ≠ EmptyString.
Proof. unfold has_group. rewrite negb_true_iff, bool_decide_eq_false. done. Qed.

Lemma accessConditions_spec user listGroup group cdoc :
  existsb (holds cdoc) (accessConditions user listGroup group) = true
  ↔ listed (u_id user) (groups user listGroup) group cdoc.
Proof.
  unfold accessConditions, listed. rewrite existsb_app.
  cbn [existsb]. rewrite orb_false_r, !orb_true_iff.
  rewrite holds_owner, holds_maintainer, holds_teachers, holds_in_assign,
    holds_in_classes, holds_size_assign.
  assert (Hgroup :
    existsb (holds cdoc)
      (if has_group group
       then [In assign [Str group]; In classes [Str group]] else []) = true
    ↔ group ≠ EmptyString
      ∧ (group ∈ or_nil (c_assign cdoc) ∨ group ∈ or_nil (c_classes cdoc))).
  { destruct (has_group group) eqn:Hg.
    - apply has_group_true in Hg. cbn [existsb]. rewrite orb_false_r, !orb_true_iff.
      rewrite (holds_in_assign cdoc [group]), (holds_in_classes cdoc [group]),
        !shares_group_singleton. tauto.
    - simpl. split; [done|]. intros [Hne _]. apply has_group_true in Hne. congruence. }
  rewrite Hgroup. tauto.
Qed.

(** C3, as the filter is built: unless the viewer may see hidden courses
    and asked for no group, a course is selected exactly when the viewer
    owns it, maintains it, teaches it, is in one of its assigned groups,
    is in one of its classes, its [assign] is present and empty, or the
    requested group is among its assigned groups or classes.  A viewer
    who may see hidden courses and asks for no group gets no access
    condition at all: every course passes.  Without a search query the
    access condition is the whole filter. *)
Theorem course_list_filter `{Host} user listGroup q group cdoc :
  (hasPerm user PERM_VIEW_HIDDEN_HOMEWORK = false ∨ group ≠ EmptyString →
   holds_or (query user listGroup q group) cdoc = true
   ↔ listed (u_id user) (groups user listGroup) group cdoc)
  ∧ (hasPerm user PERM_VIEW_HIDDEN_HOMEWORK = true → group = EmptyString →
     or (query user listGroup q group) = None
     ∧ holds_or (query user listGroup q group) cdoc = true)
  ∧ (q = [] →
     matches (query user listGroup q group) cdoc
     = Some (holds_or (query user listGroup q group) cdoc)).
Proof.
  split_and!.
  - intros Hgate. unfold holds_or, query. cbn [or].
    replace (negb (hasPerm user PERM_VIEW_HIDDEN_HOMEWORK && negb (has_group group)))
      with true.
    + apply accessConditions_spec.
    + symmetry. apply negb_true_iff, andb_false_iff.
      destruct Hgate as [Hperm|Hgroup]; [by left|right].
      apply negb_false_iff. by apply has_group_true.
  - intros Hperm ->. unfold holds_or, query. cbn [or].
    rewrite Hperm. done.
  - intros ->. unfold matches, holds_title. cbn [title query].
    simpl. by rewrite andb_true_r.
Qed.

Lemma course_list_filter_witness :
  holds_or (@query ReferenceHost.host (Sample.member 7) Sample.group_A [] "" )
           Sample.class_course = true.
Proof.
  apply (proj1 (@course_list_filter ReferenceHost.host (Sample.member 7) Sample.group_A
                  [] "" Sample.class_course)).
  - left. reflexivity.
  - unfold listed. do 4 right. left. exists "A"%string.
    split; apply list_elem_of_singleton; reflexivity.
Defined.

(** The specification's six grants do not describe the filter: a viewer
    in group A is shown a course assigned to group B only, because A is
    among the course's classes. *)
Lemma course_list_filter_counterexample :
  hasPerm (Sample.member 7) PERM_VIEW_HIDDEN_HOMEWORK = false
  ∧ holds_or (@query ReferenceHost.host (Sample.member 7) Sample.group_A [] "")
             Sample.class_course = true
  ∧ ¬ listed_as_specified 7 (groups (Sample.member 7) Sample.group_A) ""
        Sample.class_course.
Proof.
  split_and!; [reflexivity|reflexivity|].
  unfold listed_as_specified, shares_group. simpl.
  intros [?|[?%elem_of_nil|[?%elem_of_nil|[(g & Hg & Hg')|[?|[? _]]]]]]; try done.
  apply list_elem_of_singleton in Hg, Hg'. congruence.
Qed.

End list_filter.

(** ** Courses without an [assign] field *)

Section unassigned.
Import Filter CourseMainHandler CourseDetailHandler.

Lemma assign_length_truthy_false cdoc :
  assign_length_truthy cdoc = false ↔ c_assign cdoc = None ∨ c_assign cdoc = Some [].
Proof.
  unfold assign_length_truthy. destruct (c_assign cdoc) as [[|a l]|]; simpl.
  - split; [by right|done].
  - split; [done|]. intros [?|?]; done.
  - split; [by left|done].
Qed.

(** A course whose [assign] is absent or empty opens for everybody. *)
Lemma prepare_unassigned user listGroup st domainId cid cdoc :
  c_assign cdoc = None ∨ c_assign cdoc = Some [] →
  CourseModel.get st domainId cid = Some cdoc →
  prepare user listGroup st domainId cid = Ok cdoc.
Proof.
  intros Hassign%assign_length_truthy_false Hget.
  unfold prepare. by rewrite Hget, Hassign.
Qed.

(** C9, as the handlers behave: the public branch
    [{ assign: { $size: 0 } }] is among the conditions of the list
    filter, whatever group is asked for; it selects a course exactly
    when its [assign] is present and empty, and such a course is listed.
    For a viewer who neither owns, maintains nor teaches a course without
    [assign], is in none of its classes and asks for no group, every
    condition of the filter fails.  So the course is not listed for such
    a viewer who may not see hidden courses; for one who may, the list
    has no access filter and shows the course.  [prepare] of the detail
    page, which tests [assign?.length], lets every viewer open a course
    whose [assign] is absent or empty. *)
Theorem unassigned_course_unlisted `{Host} user listGroup q st domainId cid cdoc :
  c_assign cdoc = None →
  c_owner cdoc ≠ u_id user →
  u_id user ∉ or_nil (c_maintainer cdoc) →
  u_id user ∉ or_nil (c_teachers cdoc) →
  ¬ shares_group (groups user listGroup) (c_classes cdoc) →
  (∀ group, Size assign 0 ∈ accessConditions user listGroup group)
  ∧ (∀ c, holds c (Size assign 0) = true ↔ c_assign c = Some [])
  ∧ (∀ c, c_assign c = Some [] → holds_or (query user listGroup q "") c = true)
  ∧ Forall (λ cond, holds cdoc cond = false) (accessConditions user listGroup "")
  ∧ (hasPerm user PERM_VIEW_HIDDEN_HOMEWORK = false →
     or (query user listGroup q "") = Some (accessConditions user listGroup "")
     ∧ holds_or (query user listGroup q "") cdoc = false
     ∧ matches (query user listGroup q "") cdoc ≠ Some true)
  ∧ (hasPerm user PERM_VIEW_HIDDEN_HOMEWORK = true →
     or (query user listGroup q "") = None
     ∧ holds_or (query user listGroup q "") cdoc = true)
  ∧ (∀ c, c_assign c = None ∨ c_assign c = Some [] →
     CourseModel.get st domainId cid = Some c →
     prepare user listGroup st domainId cid = Ok c).
Proof.
  intros Hassign Howner Hmaint Hteach Hclasses.
  assert (Hnot : ¬ listed (u_id user) (groups user listGroup) "" cdoc).
  { unfold listed, shares_group. rewrite Hassign. simpl.
    intros [?|[?|[?|[(g & ?%elem_of_nil & _)|[?|[?|[? _]]]]]]]; done. }
  assert (Hall : existsb (holds cdoc) (accessConditions user listGroup "") = false).
  { apply not_true_is_false. by rewrite accessConditions_spec. }
  split_and!.
  - intros group. unfold accessConditions. apply elem_of_app. left.
    do 5 right. by left.
  - apply holds_size_assign.
  - intros c Hc. unfold holds_or, query. cbn [or].
    destruct (negb _); [|done]. apply accessConditions_spec.
    unfold listed. do 5 right. by left.
  - apply Forall_forall. intros cond Hin. apply not_true_is_false. intros Hcond.
    apply not_true_iff_false in Hall. apply Hall, existsb_exists.
    exists cond. split; [by apply list_elem_of_In|done].
  - intros Hperm.
    assert (Hor : or (query user listGroup q "") = Some (accessConditions user listGroup "")).
    { unfold query. cbn [or]. by rewrite Hperm. }
    assert (Hholds : holds_or (query user listGroup q "") cdoc = false).
    { unfold holds_or. rewrite Hor. exact Hall. }
    split; [done|]. split; [done|]. unfold matches. rewrite Hholds.
    destruct (holds_title _ cdoc); simpl; congruence.
  - intros Hperm.
    assert (Hor : or (query user listGroup q "") = None).
    { unfold query. cbn [or]. by rewrite Hperm. }
    split; [done|]. unfold holds_or. by rewrite Hor.
  - intros c Hc Hget. by apply prepare_unassigned.
Qed.

Lemma unassigned_course_unlisted_witness :
  holds_or (@query ReferenceHost.host (Sample.member 7) Sample.group_A [] "")
           Sample.unassigned_course = false
  ∧ prepare (Sample.member 7) Sample.group_A
      {| st_docs := {[ ("system"%string, 3%N) := Sample.unassigned_course ]};
         st_status := ∅ |} "system" 3%N
    = Ok Sample.unassigned_course.
Proof.
  pose proof (@unassigned_course_unlisted ReferenceHost.host (Sample.member 7)
                Sample.group_A []
                {| st_docs := {[ ("system"%string, 3%N) := Sample.unassigned_course ]};
                   st_status := ∅ |} "system" 3%N Sample.unassigned_course) as Hthm.
  destruct Hthm as (_ & _ & _ & _ & Hlist & _ & Hopen).
  - reflexivity.
  - simpl. lia.
  - simpl. apply not_elem_of_nil.
  - simpl. apply not_elem_of_nil.
  - intros (g & Hg & _). simpl in Hg. by apply elem_of_nil in Hg.
  - split.
    + apply Hlist. reflexivity.
    + apply Hopen; [by left|reflexivity].
Defined.

(** A viewer who may see hidden courses and is otherwise as described:
    every condition of the filter fails on the course without [assign],
    and the course is listed all the same, the list having no access
    filter for this viewer. *)
Lemma unassigned_course_unlisted_counterexample :
  c_assign Sample.unassigned_course = None
  ∧ c_owner Sample.unassigned_course ≠ 7
  ∧ (7 ∉ or_nil (c_maintainer Sample.unassigned_course))
  ∧ (7 ∉ or_nil (c_teachers Sample.unassigned_course))
  ∧ ¬ shares_group (groups (Sample.inspector 7) Sample.group_A)
        (c_assign Sample.unassigned_course)
  ∧ ¬ shares_group (groups (Sample.inspector 7) Sample.group_A)
        (c_classes Sample.unassigned_course)
  ∧ Forall (λ cond, holds Sample.unassigned_course cond = false)
      (accessConditions (Sample.inspector 7) Sample.group_A "")
  ∧ @matches ReferenceHost.host
      (@query ReferenceHost.host (Sample.inspector 7) Sample.group_A [] "")
      Sample.unassigned_course
    = Some true.
Proof.
  split_and!.
  - reflexivity.
  - simpl. lia.
  - apply not_elem_of_nil.
  - apply not_elem_of_nil.
  - intros (g & Hg & _). by apply elem_of_nil in Hg.
  - intros (g & Hg & _). by apply elem_of_nil in Hg.
  - repeat constructor.
  - reflexivity.
Qed.

End unassigned.

(** ** Creating and updating a course *)

Section postUpdate.
Import CourseEditHandler.

Lemma truthy_NaN : truthy JNaN = false.
Proof. reflexivity. Qed.

Lemma elem_of_parse_pids `{Host} _pids x :
  x ∈ parse_pids _pids
  ↔ truthy x = true
    ∧ ∃ piece, piece ∈ split_commas (replace_fullwidth_commas _pids) ∧ x = ToNumber piece.
Proof.
  unfold parse_pids. rewrite list_elem_of_filter, list_elem_of_fmap.
  split; intros [Htruthy (piece & ? & ?)]; (split; [done|by exists piece]).
Qed.

Lemma as_integer_zero p : as_integer p = Some 0 → truthy p = false.
Proof.
  destruct p as [| |v]; simpl; [done|done|].
  case_bool_decide as Hden; [|done]. intros [= Hnum].
  apply negb_false_iff, Qeq_bool_iff.
  rewrite <- (Qred_correct v). unfold Qeq. rewrite Hnum. simpl. lia.
Qed.

Lemma omap_as_integer_resolved (f : Z → bool) pids :
  Forall (λ p, truthy p = true) pids →
  forallb (λ p, from_option f false (as_integer p)) pids = true →
  Forall (λ z, z ≠ 0 ∧ f z = true) (omap as_integer pids)
  ∧ length (omap as_integer pids) = length pids.
Proof.
  induction 1 as [|p pids Hp _ IH]; simpl; [done|].
  intros [Hres Hrest]%andb_true_iff. destruct (IH Hrest) as [IH1 IH2].
  destruct (as_integer p) as [z|] eqn:Hz; simpl in *; [|done].
  split; [|simpl; f_equal; exact IH2]. constructor; [|exact IH1]. split; [|done].
  intros ->. apply as_integer_zero in Hz. congruence.
Qed.

Lemma parse_pids_truthy `{Host} _pids : Forall (λ p, truthy p = true) (parse_pids _pids).
Proof. apply Forall_forall. by intros p [? _]%elem_of_parse_pids. Qed.

Lemma omap_as_integer_nonzero pids :
  Forall (λ p, truthy p = true) pids → 0 ∉ omap as_integer pids.
Proof.
  induction 1 as [|p pids Hp _ IH]; simpl; [apply not_elem_of_nil|].
  destruct (as_integer p) as [z|] eqn:Hz; simpl; [|done].
  rewrite elem_of_cons. intros [<- | ?]; [|done].
  apply as_integer_zero in Hz. congruence.
Qed.

(** One parameter of a request is read: a failure ends the reading. *)
Ltac read_param v :=
  destruct v; cbn [mbind Result_bind required optional]; try done.

Lemma params_Throw q e : params q = Throw e → ∃ name, e = ValidationError [name].
Proof.
  unfold params.
  read_param (q_cid q); try (intros [= <-]; by eexists);
  read_param (q_title q); try (intros [= <-]; by eexists);
  read_param (q_content q); try (intros [= <-]; by eexists);
  read_param (q_pids q); try (intros [= <-]; by eexists);
  read_param (q_beginAtDate q); try (intros [= <-]; by eexists);
  read_param (q_beginAtTime q); try (intros [= <-]; by eexists);
  read_param (q_endAtDate q); try (intros [= <-]; by eexists);
  read_param (q_endAtTime q); try (intros [= <-]; by eexists);
  read_param (q_maintainer q); try (intros [= <-]; by eexists);
  read_param (q_teachers q); try (intros [= <-]; by eexists);
  read_param (q_assign q); try (intros [= <-]; by eexists);
  read_param (q_classes q); try (intros [= <-]; by eexists).
Qed.

Lemma params_Ok q p :
  params q = Ok p →
  q_title q = Accepted (p_title p)
  ∧ q_content q = Accepted (p_content p)
  ∧ q_beginAtDate q = Accepted (p_beginAtDate p)
  ∧ q_beginAtTime q = Accepted (p_beginAtTime p)
  ∧ q_endAtDate q = Accepted (p_endAtDate p)
  ∧ q_endAtTime q = Accepted (p_endAtTime p)
  ∧ q_cid q ≠ Rejected
  ∧ p_cid p = (if q_cid q is Accepted c then Some c else None)
  ∧ p_pids p = (if q_pids q is Accepted t then t else []).
Proof.
  unfold params.
  read_param (q_cid q); read_param (q_title q); read_param (q_content q);
  read_param (q_pids q); read_param (q_beginAtDate q); read_param (q_beginAtTime q);
  read_param (q_endAtDate q); read_param (q_endAtTime q); read_param (q_maintainer q);
  read_param (q_teachers q); read_param (q_assign q); read_param (q_classes q);
  by intros [= <-].
Qed.

(** C4, as the handler behaves: a begin or end date or time that is
    missing or refused by its parameter type (like every parameter that
    fails its check), a begin or end time that does not read as a date,
    and a begin time not before the end time are Validation failures.
    The problem list is no cause of one: the
    pieces of the list that are not numbers, like those that are zero,
    are left out of the list that is stored, and a request whose
    parameters are all accepted and whose time range is well formed does
    not fail with a Validation error.  A request that fails, for whatever
    reason, leaves the store as it was. *)
Theorem postUpdate_validation `{Host} resolves set_absent user st domainId q newId :
  let result := postUpdate resolves set_absent user st domainId q newId in
  ((∃ v, v ∈ [q_beginAtDate q; q_beginAtTime q; q_endAtDate q; q_endAtTime q]
         ∧ ∀ a, v ≠ Accepted a) →
   ∃ fields, result = (Throw (ValidationError fields), st))
  ∧ (∀ err, params q = Throw err →
     ∃ name, err = ValidationError [name] ∧ result = (Throw err, st))
  ∧ (∀ p, params q = Ok p →
     let beginAt := Date_of_string (p_beginAtDate p ++ space :: p_beginAtTime p) in
     let endAt := Date_of_string (p_endAtDate p ++ space :: p_endAtTime p) in
     let pids := parse_pids (p_pids p) in
     (beginAt = None →
      result = (Throw (ValidationError ["beginAtDate"; "beginAtTime"]%string), st))
     ∧ (is_Some beginAt → endAt = None →
        result = (Throw (ValidationError ["endAtDate"; "endAtTime"]%string), st))
     ∧ (∀ b e, beginAt = Some b → endAt = Some e → e ≤ b →
        result = (Throw (ValidationError ["endAtDate"; "endAtTime"]%string), st))
     ∧ (∀ b e, beginAt = Some b → endAt = Some e → b < e →
        ∀ fields, result.1 ≠ Throw (ValidationError fields))
     ∧ (∀ piece, piece ∈ split_commas (replace_fullwidth_commas (p_pids p)) →
        ToNumber piece = JNaN ∨ as_integer (ToNumber piece) = Some 0 →
        ToNumber piece ∉ pids)
     ∧ (0 ∉ omap as_integer pids)
     ∧ (∀ id, result.1 = Ok id →
        p_cid p = None ∨ is_Some (st_docs st !! (domainId, id)) →
        c_pids <$> st_docs result.2 !! (domainId, id) = Some (omap as_integer pids)))
  ∧ (∀ err, result.1 = Throw err → result.2 = st).
Proof.
  intros result. subst result. unfold postUpdate. split_and!.
  - intros (v & Hv & Hrefused). destruct (params q) as [p|e] eqn:Hp.
    + apply params_Ok in Hp as (_ & _ & Hbd & Hbt & Hed & Het & _).
      rewrite Hbd, Hbt, Hed, Het in Hv.
      repeat (apply elem_of_cons in Hv as [-> | Hv]; [by edestruct Hrefused|]).
      by apply elem_of_nil in Hv.
    + apply params_Throw in Hp as [name ->]. by eexists.
  - intros err Hp. rewrite Hp. apply params_Throw in Hp as [name ->]. by exists name.
  - intros p Hp. rewrite Hp. unfold postUpdate_body.
    set (beginAt := Date_of_string (p_beginAtDate p ++ space :: p_beginAtTime p)).
    set (endAt := Date_of_string (p_endAtDate p ++ space :: p_endAtTime p)).
    set (pids := parse_pids (p_pids p)). split_and!.
    + intros ->. done.
    + intros [b ->] ->. done.
    + intros b e -> -> Hle. by rewrite bool_decide_eq_true_2.
    + intros b e -> -> Hlt fields. rewrite bool_decide_eq_false_2 by lia.
      destruct (negb _ && negb _); [done|]. by destruct (p_cid p).
    + intros piece _ Hfalsy. unfold pids. rewrite elem_of_parse_pids.
      intros [Htruthy _]. destruct Hfalsy as [Hnan|Hzero].
      * by rewrite Hnan, truthy_NaN in Htruthy.
      * apply as_integer_zero in Hzero. congruence.
    + apply omap_as_integer_nonzero, parse_pids_truthy.
    + intros id. destruct beginAt as [b|]; [|done]. destruct endAt as [e|]; [|done].
      case_bool_decide; [done|]. destruct (negb _ && negb _); [done|].
      destruct (p_cid p) as [c|]; simpl.
      * intros [= ->] [?|[old Hold]]; [done|]. unfold edit. rewrite Hold. simpl.
        by rewrite lookup_insert_eq.
      * intros [= ->] _. by rewrite lookup_insert_eq.
  - intros err. destruct (params q) as [p|e]; [|done]. unfold postUpdate_body.
    destruct (Date_of_string _) as [b|]; [|done].
    destruct (Date_of_string _) as [e|]; [|done].
    case_bool_decide; [done|].
    destruct (negb _ && negb _); [done|]. by destruct (p_cid p).
Qed.

(** A new course that would end before it begins. *)
Lemma postUpdate_validation_witness :
  @postUpdate ReferenceHost.host Sample.only_problem_1 Sample.ignore_absent
    (Sample.member 2) Sample.store "system"
    (Sample.creation "1" "2024-01-31" "00:00" "2024-01-01" "00:00") 9%N
  = (Throw (ValidationError ["endAtDate"; "endAtTime"]%string), Sample.store).
Proof.
  pose proof (@postUpdate_validation ReferenceHost.host Sample.only_problem_1
                Sample.ignore_absent (Sample.member 2) Sample.store "system"
                (Sample.creation "1" "2024-01-31" "00:00" "2024-01-01" "00:00") 9%N)
    as (_ & _ & Hbody & _).
  destruct (Hbody (mkParams None (js "Algebra") (js "Groups and rings") (js "1")
                     (js "2024-01-31") (js "00:00") (js "2024-01-01") (js "00:00")
                     Sample.no_args) eq_refl) as (_ & _ & Hrange & _).
  apply (Hrange Sample.jan31 Sample.jan01).
  - vm_compute. reflexivity.
  - vm_compute. reflexivity.
  - vm_compute. discriminate.
Defined.

(** The problem list "1,abc" with a well-formed time range: the piece
    "abc" is not a number, and the course is created, with problem 1. *)
Lemma postUpdate_validation_counterexample :
  let result :=
    @postUpdate ReferenceHost.host Sample.only_problem_1 Sample.ignore_absent
      (Sample.member 2) Sample.store "system"
      (Sample.creation "1,abc" "2024-01-01" "00:00" "2024-01-31" "00:00") 9%N in
  split_commas (replace_fullwidth_commas (js "1,abc")) = [js "1"; js "abc"]
  ∧ @ToNumber ReferenceHost.host (js "abc") = JNaN
  ∧ result.1 = Ok 9%N
  ∧ c_pids <$> st_docs result.2 !! ("system"%string, 9%N) = Some [1]
  ∧ st_docs Sample.store !! ("system"%string, 9%N) = None.
Proof. vm_compute. split_and!; reflexivity. Qed.

End postUpdate.

(** ** The title search *)

Section title_search.
Context `{host : Host}.
Import RegExp CourseMainHandler.

Lemma is_syntax_char_backslash : is_syntax_char backslash = true.
Proof. reflexivity. Qed.

Lemma is_syntax_char_caret : is_syntax_char caret = true.
Proof. reflexivity. Qed.

(** Reading an escaped text back gives the text, character by
    character. *)
Lemma parse_escapeRegExp s : parse (escapeRegExp s) = Some (Lit <$> s).
Proof.
  induction s as [|c s IH]; [done|].
  change (escapeRegExp (c :: s))
    with ((if is_syntax_char c then [backslash; c] else [c]) ++ escapeRegExp s).
  destruct (is_syntax_char c) eqn:Hc.
  - simpl. rewrite Hc. fold (escapeRegExp s). by rewrite IH.
  - assert (c ≠ backslash) by (intros ->; by rewrite is_syntax_char_backslash in Hc).
    assert (c ≠ caret) by (intros ->; by rewrite is_syntax_char_caret in Hc).
    simpl. rewrite !bool_decide_eq_false_2, Hc by done.
    fold (escapeRegExp s). by rewrite IH.
Qed.

Lemma parse_caret_escapeRegExp s :
  parse (caret :: escapeRegExp s) = Some (Bol :: (Lit <$> s)).
Proof.
  change (parse (caret :: escapeRegExp s))
    with ((Bol ::.) <$> parse (escapeRegExp s)).
  by rewrite parse_escapeRegExp.
Qed.

Section engine.
Variable re : RegExp.t.
Hypothesis re_ignoreCase : ignoreCase re = true.
Hypothesis re_multiline : multiline re = true.

Lemma char_matches_spec c d :
  char_matches re c d = true ↔ canonicalize c = canonicalize d.
Proof. unfold char_matches. rewrite re_ignoreCase. apply bool_decide_eq_true. Qed.

Lemma match_here_literal s prev input :
  match_here re (Lit <$> s) prev input = true ↔ starts_with s input.
Proof.
  unfold starts_with, ci_equal.
  revert prev input. induction s as [|c s IH]; intros prev input.
  - simpl. split; [|done]. intros _. by exists [], input.
  - destruct input as [|d input]; simpl.
    + split; [done|]. intros (mid & post & Heq & Hci).
      symmetry in Heq. apply app_eq_nil in Heq as [-> _]. done.
    + rewrite andb_true_iff, char_matches_spec, IH. split.
      * intros (Hcd & mid & post & -> & Hci). exists (d :: mid), post.
        split; [done|]. rewrite fmap_cons. f_equal; [exact Hcd|exact Hci].
      * intros (mid & post & Heq & Hci).
        destruct mid as [|m mid]; [done|]. rewrite fmap_cons in Hci.
        injection Heq as <- ->. injection Hci as Hcd Hci. eauto.
Qed.

Lemma at_line_start_spec pre :
  at_line_start re (last pre) = true ↔ line_start_after pre.
Proof.
  unfold at_line_start, line_start_after. rewrite re_multiline.
  destruct (last pre) as [p|] eqn:Hlast; simpl.
  - split; [by eauto|]. intros [->|(p' & [= <-] & Hp)]; done.
  - apply last_None in Hlast. split; [by left|done].
Qed.

(** [search] tries every position of the input, from left to right. *)
Lemma search_spec atoms prev input :
  search re atoms prev input = true
  ↔ ∃ pre rest, input = pre ++ rest
      ∧ match_here re atoms (from_option Some prev (last pre)) rest = true.
Proof.
  revert prev. induction input as [|d input IH]; intros prev.
  - simpl. rewrite orb_false_r. split.
    + intros Hm. by exists [], [].
    + intros (pre & rest & Heq & Hm). symmetry in Heq.
      apply app_eq_nil in Heq as [-> ->]. done.
  - simpl. rewrite orb_true_iff, IH. split.
    + intros [Hm|(pre & rest & -> & Hm)].
      * by exists [], (d :: input).
      * exists (d :: pre), rest. split; [done|].
        rewrite last_cons. by destruct (last pre).
    + intros (pre & rest & Heq & Hm). destruct pre as [|d' pre].
      * left. simpl in Heq, Hm. by subst.
      * right. injection Heq as <- ->. exists pre, rest. split; [done|].
        rewrite last_cons in Hm. by destruct (last pre).
Qed.

Lemma search_literal s input :
  search re (Lit <$> s) None input = true ↔ occurs_in s input.
Proof.
  rewrite search_spec. unfold occurs_in.
  by setoid_rewrite match_here_literal.
Qed.

Lemma search_anchored_literal s input :
  search re (Bol :: (Lit <$> s)) None input = true ↔ starts_a_line_of s input.
Proof.
  rewrite search_spec. unfold starts_a_line_of.
  split; intros (pre & rest & -> & Hm); exists pre, rest; (split; [done|]).
  - simpl in Hm. apply andb_true_iff in Hm as [Hline Hm].
    apply match_here_literal in Hm. split; [|done].
    apply at_line_start_spec. by destruct (last pre).
  - destruct Hm as [Hline Hm]. simpl. apply andb_true_iff. split.
    + apply at_line_start_spec in Hline. by destruct (last pre).
    + by apply match_here_literal.
Qed.

End engine.

(** In a text without line terminators only the text itself starts a
    line. *)
Lemma starts_a_line_of_single_line needle text :
  (∀ c, c ∈ text → lineTerminator c = false) →
  starts_a_line_of needle text ↔ starts_with needle text.
Proof.
  intros Hline. split.
  - intros (pre & rest & -> & [->|(p & Hlast & Hp)] & Hstart); [done|].
    rewrite Hline in Hp; [done|].
    apply elem_of_app. left. apply last_Some in Hlast as [l' ->].
    apply elem_of_app. right. by left.
  - intros Hstart. exists [], text. split; [done|]. split; [by left|done].
Qed.

(** C8, as the pattern is built and run: a non-empty query is compared
    without regard to case, in its lower-case form.  A query of two or
    more code units selects the titles in which it occurs anywhere; a
    query of one code unit selects the titles in which it starts a line
    (the pattern carries the flag [m]), which for a title of one line
    means that the title starts with it. *)
Theorem title_search user listGroup q group title :
  q ≠ [] →
  Filter.title (query user listGroup q group) = Some (title_regex q)
  ∧ is_Some (test (title_regex q) title)
  ∧ ((2 ≤ length q)%nat →
     test (title_regex q) title = Some true ↔ occurs_in (toLowerCase q) title)
  ∧ (length q = 1%nat →
     (test (title_regex q) title = Some true ↔ starts_a_line_of (toLowerCase q) title)
     ∧ ((∀ c, c ∈ title → lineTerminator c = false) →
        test (title_regex q) title = Some true ↔ starts_with (toLowerCase q) title)).
Proof.
  intros Hq.
  assert (Hsrc : source (title_regex q)
                 = if bool_decide (2 ≤ length q)%nat then escaped q
                   else caret :: escaped q) by reflexivity.
  assert (Hlong : (2 ≤ length q)%nat →
            test (title_regex q) title
            = Some (search (title_regex q) (Lit <$> toLowerCase q) None title)).
  { intros Hlen. unfold test. rewrite Hsrc, bool_decide_eq_true_2 by done.
    unfold escaped. by rewrite parse_escapeRegExp. }
  assert (Hshort : length q = 1%nat →
            test (title_regex q) title
            = Some (search (title_regex q) (Bol :: (Lit <$> toLowerCase q)) None title)).
  { intros Hlen. unfold test. rewrite Hsrc, bool_decide_eq_false_2 by lia.
    unfold escaped. by rewrite parse_caret_escapeRegExp. }
  split_and!.
  - unfold query. cbn [Filter.title]. by rewrite bool_decide_eq_false_2.
  - destruct (decide (2 ≤ length q)%nat) as [Hlen|Hlen].
    + rewrite Hlong by done. eauto.
    + rewrite Hshort; [eauto|]. destruct q as [|? [|]]; simpl in *; [done|done|lia].
  - intros Hlen. rewrite Hlong by done.
    rewrite <- (search_literal (title_regex q)) by done.
    split; [by intros [= ->]|by intros ->].
  - intros Hlen. rewrite Hshort by done.
    assert (Hline : Some (search (title_regex q) (Bol :: (Lit <$> toLowerCase q)) None title)
                    = Some true ↔ starts_a_line_of (toLowerCase q) title).
    { rewrite <- (search_anchored_literal (title_regex q)) by done.
      split; [by intros [= ->]|by intros ->]. }
    split; [done|]. intros Hsingle.
    by rewrite Hline, starts_a_line_of_single_line.
Qed.

End title_search.

Lemma title_search_witness :
  @RegExp.test ReferenceHost.host (@CourseMainHandler.title_regex ReferenceHost.host (js "GO"))
    (js "Algorithms") = Some true.
Proof.
  apply (proj1 (proj2 (proj2
    (@title_search ReferenceHost.host (Sample.member 7) Sample.group_A (js "GO") ""
       (js "Algorithms") ltac:(discriminate)))) ltac:(vm_compute; lia)).
  exists (js "Al"), (js "gorithms"). split; [reflexivity|].
  exists (js "go"), (js "rithms"). split; reflexivity.
Defined.

(** The query "c" and the title of the two lines "ab" and "cd": the
    title is selected, and it does not start with "c". *)
Lemma title_search_counterexample :
  length (js "c") = 1%nat
  ∧ @RegExp.test ReferenceHost.host
      (@CourseMainHandler.title_regex ReferenceHost.host (js "c")) Sample.two_lines
    = Some true
  ∧ ¬ @starts_with ReferenceHost.host (@toLowerCase ReferenceHost.host (js "c"))
        Sample.two_lines.
Proof.
  split_and!; [reflexivity|reflexivity|].
  intros (mid & post & Heq & Hci). unfold ci_equal in Hci.
  destruct mid as [|m [|m' mid]]; [done| |done].
  injection Heq as <- _. vm_compute in Hci. discriminate.
Qed.

(** ** Enrolling at most once *)

Section attend_once.
Import DocumentModel CourseModel Enroll.
Variables (domainId : string) (cid : ObjectId) (uid : Z).

Local Abbreviation key := (domainId, cid, uid).
Local Abbreviation enrolled := (Enroll.enrolled domainId cid uid).
Local Abbreviation counter := (Enroll.counter domainId cid).
Local Abbreviation bump := (Enroll.bump domainId cid).
Local Abbreviation step := (Enroll.step domainId cid uid).
Local Abbreviation steps := (Enroll.steps domainId cid uid).

Lemma setIfNotStatus_None st now :
  setIfNotStatus st domainId cid uid 1 1 1 now = None ↔ enrolled st.
Proof.
  unfold setIfNotStatus, Enroll.enrolled. case_bool_decide; split; done.
Qed.

Lemma setIfNotStatus_Some st now st' :
  setIfNotStatus st domainId cid uid 1 1 1 now = Some st' →
  ¬ enrolled st ∧ enrolled st' ∧ st_docs st' = st_docs st
  ∧ (∀ k, k ≠ key → st_status st' !! k = st_status st !! k)
  ∧ (st_status st' !! key ≫= s_startAt) = Some now.
Proof.
  unfold setIfNotStatus, Enroll.enrolled. case_bool_decide as Hen; [done|].
  intros [= <-]. simpl. rewrite lookup_insert_eq. split_and!; try done.
  intros k Hk. by rewrite lookup_insert_ne.
Qed.

Lemma inc_enrolled st : enrolled (inc st domainId cid 1) ↔ enrolled st.
Proof. done. Qed.

Lemma inc_counter st :
  counter (inc st domainId cid 1) = counter st + bump st.
Proof.
  unfold Enroll.counter, Enroll.bump, inc. simpl. rewrite lookup_alter_eq.
  destruct (st_docs st !! (domainId, cid)); simpl; lia.
Qed.

Lemma inc_bump st : bump (inc st domainId cid 1) = bump st.
Proof.
  unfold Enroll.bump, inc. simpl. rewrite lookup_alter_eq.
  by destruct (st_docs st !! (domainId, cid)).
Qed.

(** Replacing the state of one call moves one unit between tallies. *)
Lemma tally_insert f st st' calls i x y :
  calls !! i = Some x →
  (tally f (mkConfig st' (<[i := y]> calls)) + (if f x then 1 else 0)
   = tally f (mkConfig st calls) + (if f y then 1 else 0))%nat.
Proof.
  unfold tally. simpl. revert i. induction calls as [|pc calls IH]; intros i Hi; [done|].
  destruct i as [|i]; simpl in Hi.
  - injection Hi as ->. simpl. rewrite !filter_cons.
    destruct (f x), (f y); simpl; repeat case_decide; simpl; try done; lia.
  - specialize (IH i Hi). simpl. rewrite !filter_cons.
    case_decide; simpl; lia.
Qed.

Lemma tally_partition c :
  length (cf_calls c)
  = (tally at_set c + tally at_inc c + tally returned c + tally thrown c)%nat.
Proof.
  unfold tally. induction (cf_calls c) as [|pc l IH]; [done|].
  rewrite !filter_cons. destruct pc; simpl; repeat case_decide; simpl; try done; lia.
Qed.

Lemma tally_init f st nows :
  (∀ now, f (AtSet now) = false) → tally f (init st nows) = 0%nat.
Proof.
  intros Hf. unfold tally, init. simpl.
  induction nows as [|now nows IH]; [done|].
  rewrite fmap_cons, filter_cons_False; [done|]. by rewrite Hf.
Qed.

Lemma final_tally c : final c → tally at_set c = 0%nat ∧ tally at_inc c = 0%nat.
Proof.
  unfold final, tally. induction 1 as [|pc l Hpc _ [IH1 IH2]]; [done|].
  rewrite !filter_cons. destruct pc; simpl in *; repeat case_decide; done.
Qed.

Section invariant.
Variables (st0 : Store) (nows : list Date).

Local Abbreviation Inv := (Enroll.invariant domainId cid uid st0 nows).

Lemma invariant_init : Inv (init st0 nows).
Proof.
  unfold Enroll.invariant. rewrite !tally_init by done. simpl. rewrite length_fmap.
  split_and!; try done; try lia.
  split; [by left|]. intros [?|?]; [done|lia].
Qed.

Lemma invariant_step c c' : Inv c → step c c' → Inv c'.
Proof.
  intros (Hlen & Hen & Hst0 & Hone & Hthrown & Hcount & Hbump & Hother) Hstep.
  destruct Hstep as [st st' calls i now Hi Hset|st calls i now Hi Hset|st calls i Hi];
    unfold Enroll.invariant; simpl in *; rewrite length_insert.
  - apply setIfNotStatus_Some in Hset as (Hnot & Hen' & Hdocs & Hstatus & _).
    pose proof (tally_insert at_inc st st' calls i _ AtInc Hi) as Hi_inc.
    pose proof (tally_insert returned st st' calls i _ AtInc Hi) as Hi_ret.
    pose proof (tally_insert thrown st st' calls i _ AtInc Hi) as Hi_thr.
    simpl in Hi_inc, Hi_ret, Hi_thr.
    assert (Hnone : ¬ enrolled st0 ∧ (tally at_inc (mkConfig st calls)
                     + tally returned (mkConfig st calls) = 0)%nat).
    { split; [tauto|]. destruct (tally at_inc (mkConfig st calls)
        + tally returned (mkConfig st calls))%nat eqn:E; [done|].
      exfalso. apply Hnot, Hen. right. lia. }
    destruct Hnone as [Hnot0 Hzero].
    split_and!; try done; try lia.
    + split; [intros _; right; lia|done].
    + unfold Enroll.counter in *. rewrite Hdocs. rewrite Hcount. f_equal. f_equal. lia.
    + unfold Enroll.bump in *. by rewrite Hdocs.
    + intros k Hk. rewrite Hstatus by done. by apply Hother.
  - apply setIfNotStatus_None in Hset.
    pose proof (tally_insert at_inc st st calls i _ Thrown Hi) as Hi_inc.
    pose proof (tally_insert returned st st calls i _ Thrown Hi) as Hi_ret.
    simpl in Hi_inc, Hi_ret.
    split_and!; try done.
    + rewrite Hen. split; (intros [?|?]; [by left|right; lia]).
    + intros H0. destruct (Hst0 H0) as [? ?]. split; [lia|done].
    + lia.
    + rewrite Hcount. f_equal. f_equal. lia.
  - pose proof (tally_insert at_inc st (inc st domainId cid 1) calls i _ Returned Hi)
      as Hi_inc.
    pose proof (tally_insert returned st (inc st domainId cid 1) calls i _ Returned Hi)
      as Hi_ret.
    pose proof (tally_insert thrown st (inc st domainId cid 1) calls i _ Returned Hi)
      as Hi_thr.
    simpl in Hi_inc, Hi_ret, Hi_thr.
    split_and!; try done.
    + rewrite inc_enrolled, Hen. split; (intros [?|?]; [by left|right; lia]).
    + intros H0. destruct (Hst0 H0) as [? ?]. lia.
    + lia.
    + intros Ht. apply inc_enrolled, Hthrown. lia.
    + rewrite inc_counter, Hcount, Hbump. nia.
    + by rewrite inc_bump.
Qed.

Lemma invariant_steps c : steps (init st0 nows) c → Inv c.
Proof.
  intros Hsteps. eapply (rtc_ind_r Inv); [apply invariant_init| |exact Hsteps].
  intros y z _ Hstep HInv. by eapply invariant_step.
Qed.

End invariant.

(** Every step runs one of the store operations still to run. *)
Lemma step_weight c c' : step c c' → (weight c' < weight c)%nat.
Proof.
  intros Hstep. unfold weight.
  destruct Hstep as [st st' calls i now Hi Hset|st calls i now Hi Hset|st calls i Hi].
  - pose proof (tally_insert at_set st st' calls i _ AtInc Hi).
    pose proof (tally_insert at_inc st st' calls i _ AtInc Hi). simpl in *. lia.
  - pose proof (tally_insert at_set st st calls i _ Thrown Hi).
    pose proof (tally_insert at_inc st st calls i _ Thrown Hi). simpl in *. lia.
  - pose proof (tally_insert at_set st (inc st domainId cid 1) calls i _ Returned Hi).
    pose proof (tally_insert at_inc st (inc st domainId cid 1) calls i _ Returned Hi).
    simpl in *. lia.
Qed.

(** A call that has not finished can always take its next step. *)
Lemma step_progress c : ¬ final c → ∃ c', step c c'.
Proof.
  destruct c as [st calls]. unfold final. simpl.
  intros (pc & Hin & Hpc)%not_Forall_Exists%Exists_exists; [|apply _].
  apply list_elem_of_lookup in Hin as [i Hi]. simpl in Hpc.
  destruct pc as [now| | |]; simpl in Hpc; [| |done|done].
  - destruct (setIfNotStatus st domainId cid uid 1 1 1 now) as [st'|] eqn:Hset.
    + eexists. by eapply step_set_ok.
    + eexists. by eapply step_set_conflict.
  - eexists. by eapply step_inc.
Qed.

(** Every execution can be run to its end. *)
Lemma steps_terminate c : ∃ c', steps c c' ∧ final c'.
Proof.
  remember (weight c) as n eqn:Hn. revert c Hn.
  induction n as [n IH] using lt_wf_ind. intros c ->.
  destruct (decide (final c)) as [Hfinal|Hnot].
  - exists c. split; [apply rtc_refl|done].
  - destruct (step_progress c Hnot) as [c1 Hstep].
    destruct (IH (weight c1) (step_weight _ _ Hstep) c1 eq_refl) as (c' & Hsteps & Hfinal).
    exists c'. split; [|done]. by eapply rtc_l.
Qed.

(** One call on its own: its two steps are [attend]. *)
Lemma attend_is_two_steps st now :
  steps (init st [now])
        (mkConfig (attend st domainId cid uid now).2
                  [match (attend st domainId cid uid now).1 with
                   | Ok _ => Returned
                   | Throw _ => Thrown
                   end]).
Proof.
  unfold attend, init. simpl.
  destruct (setIfNotStatus st domainId cid uid 1 1 1 now) as [st'|] eqn:Hset; simpl.
  - eapply rtc_l; [by eapply (step_set_ok _ _ _ st st' _ 0%nat)|].
    eapply rtc_l; [by eapply (step_inc _ _ _ st' _ 0%nat)|]. apply rtc_refl.
  - eapply rtc_l; [by eapply (step_set_conflict _ _ _ st _ 0%nat)|]. apply rtc_refl.
Qed.

Lemma bump_range st : 0 ≤ bump st ≤ 1.
Proof. unfold Enroll.bump. destruct (st_docs st !! (domainId, cid)); lia. Qed.

(** C2: [attend] runs the conditional write first and increments the
    counter, by one, only after it succeeded; on an existing enrollment
    it throws 'Already enrolled in this course' and changes nothing.
    However the steps of simultaneous calls for one (course, user)
    interleave: at most one call passes the conditional write, the
    counter grows by the number of calls that returned, at most one, no
    other status document is touched, the execution can always be run to
    its end, and at the end exactly one call has returned and all others
    have thrown (all of them, when the user was enrolled before). *)
Theorem attend_at_most_once st0 nows c :
  steps (init st0 nows) c →
  (∀ st now, enrolled st → attend st domainId cid uid now = (Throw AlreadyEnrolled, st))
  ∧ (∀ st now, ¬ enrolled st →
       ∃ st', setIfNotStatus st domainId cid uid 1 1 1 now = Some st'
         ∧ attend st domainId cid uid now = (Ok (), inc st' domainId cid 1)
         ∧ enrolled (inc st' domainId cid 1)
         ∧ counter (inc st' domainId cid 1) = counter st + bump st)
  ∧ (tally at_inc c + tally returned c ≤ 1)%nat
  ∧ counter (cf_store c) = counter st0 + bump st0 * Z.of_nat (tally returned c)
  ∧ counter st0 ≤ counter (cf_store c) ≤ counter st0 + 1
  ∧ (∀ k, k ≠ key → st_status (cf_store c) !! k = st_status st0 !! k)
  ∧ (∃ c', steps c c' ∧ final c')
  ∧ (final c → ¬ enrolled st0 → nows ≠ [] →
       tally returned c = 1%nat ∧ tally thrown c = (length nows - 1)%nat
       ∧ enrolled (cf_store c))
  ∧ (final c → enrolled st0 →
       tally returned c = 0%nat ∧ tally thrown c = length nows ∧ cf_store c = st0).
Proof.
  intros Hsteps.
  destruct (invariant_steps st0 nows c Hsteps)
    as (Hlen & Hen & Hst0 & Hone & Hthrown & Hcount & Hbump & Hother).
  pose proof (tally_partition c) as Hpart.
  pose proof (bump_range st0) as Hrange.
  split_and!; try done.
  - intros st now Hst. unfold attend.
    by rewrite (proj2 (setIfNotStatus_None st now) Hst).
  - intros st now Hst. unfold attend.
    destruct (setIfNotStatus st domainId cid uid 1 1 1 now) as [st'|] eqn:Hset.
    + apply setIfNotStatus_Some in Hset as Hfacts.
      destruct Hfacts as (_ & Hen' & Hdocs & _).
      exists st'. split_and!; try done.
      rewrite inc_counter. unfold Enroll.counter, Enroll.bump. by rewrite Hdocs.
    + by apply setIfNotStatus_None in Hset.
  - nia.
  - nia.
  - apply steps_terminate.
  - intros Hfinal Hnot Hnows. apply final_tally in Hfinal as [Hs Hi].
    assert (length nows ≠ 0%nat) by (by destruct nows).
    assert (tally returned c = 1%nat).
    { destruct (tally returned c) as [|[|r]] eqn:Hr; [|done|lia].
      assert (1 ≤ tally thrown c)%nat as Ht%Hthrown%Hen by lia.
      destruct Ht; [done|lia]. }
    split_and!; [done|lia|]. apply Hen. right. lia.
  - intros Hfinal H0. apply final_tally in Hfinal as [Hs Hi].
    destruct (Hst0 H0) as [Hzero ->]. split_and!; [lia|lia|done].
Qed.

End attend_once.

Lemma race_steps : Enroll.steps "system" 1%N 7 Sample.race_start Sample.race_end.
Proof.
  unfold Sample.race_start, Sample.race_end, Enroll.init. simpl.
  eapply rtc_l.
  { eapply (Enroll.step_set_ok _ _ _ _ _ _ 1%nat); reflexivity. }
  eapply rtc_l.
  { eapply (Enroll.step_set_conflict _ _ _ _ _ 0%nat); reflexivity. }
  eapply rtc_l.
  { eapply (Enroll.step_set_conflict _ _ _ _ _ 2%nat); reflexivity. }
  eapply rtc_l.
  { eapply (Enroll.step_inc _ _ _ _ _ 1%nat); reflexivity. }
  apply rtc_refl.
Qed.

Lemma attend_at_most_once_witness :
  Enroll.tally Enroll.returned Sample.race_end = 1%nat
  ∧ Enroll.tally Enroll.thrown Sample.race_end = 2%nat
  ∧ Enroll.counter "system" 1%N (Enroll.cf_store Sample.race_end) = 1.
Proof.
  pose proof (attend_at_most_once "system" 1%N 7 Sample.store
                [Sample.jan01; Sample.jan01 + 1; Sample.jan01 + 2] Sample.race_end
                race_steps) as (_ & _ & _ & Hcount & _ & _ & _ & Hend & _).
  destruct Hend as (Hret & Hthr & _).
  - apply Forall_forall. intros pc Hpc. vm_compute in Hpc.
    repeat (apply elem_of_cons in Hpc as [->|Hpc]; [reflexivity|]).
    by apply elem_of_nil in Hpc.
  - vm_compute. discriminate.
  - discriminate.
  - split_and!; [exact Hret|exact Hthr|].
    rewrite Hcount, Hret. reflexivity.
Defined.

(** ** The order of the scoreboard *)

Section scoreboard_order.
Import CourseScoreboardHandler.

Lemma insert_row_sorted a l :
  StronglySorted by_total_desc l → StronglySorted by_total_desc (insert_row a l).
Proof.
  induction 1 as [|b l Hl IH Hb]; simpl.
  - repeat constructor.
  - case_bool_decide as Hcmp.
    + constructor; [by constructor|]. constructor; [unfold by_total_desc; lia|].
      eapply Forall_impl; [exact Hb|]. unfold by_total_desc. intros c Hc. lia.
    + constructor; [exact IH|]. rewrite insert_row_perm.
      constructor; [unfold by_total_desc; lia|exact Hb].
Qed.

Lemma sort_rows_sorted l : StronglySorted by_total_desc (sort_rows l).
Proof.
  induction l as [|a l IH]; simpl; [constructor|]. by apply insert_row_sorted.
Qed.

(** A row goes in behind the rows of larger total only. *)
Lemma insert_row_filter t a l :
  filter (λ r, row_totalScore r = t) (insert_row a l)
  = filter (λ r, row_totalScore r = t) (a :: l).
Proof.
  induction l as [|b l IH]; simpl; [done|].
  case_bool_decide as Hcmp; [done|].
  rewrite (filter_cons _ b), IH, !(filter_cons _ a), (filter_cons _ b).
  destruct (decide (row_totalScore b = t)), (decide (row_totalScore a = t)); try done.
  lia.
Qed.

(** X3: the scoreboard lists the rows of the students of the page, each
    once, from the largest total to the smallest, and rows of equal total
    stay in the order of the enrollment listing. *)
Theorem scoreboard_order cdoc csdocs :
  rows cdoc csdocs ≡ₚ make_row cdoc <$> csdocs
  ∧ StronglySorted by_total_desc (rows cdoc csdocs)
  ∧ (∀ t, filter (λ r, row_totalScore r = t) (rows cdoc csdocs)
          = filter (λ r, row_totalScore r = t) (make_row cdoc <$> csdocs)).
Proof.
  unfold rows. split_and!.
  - apply sort_rows_perm.
  - apply sort_rows_sorted.
  - intros t. induction (make_row cdoc <$> csdocs) as [|a l IH]; [done|].
    simpl. rewrite insert_row_filter, !(filter_cons _ a), IH. done.
Qed.

End scoreboard_order.

(** ** Opening a course *)

Section detail_access.
Import CourseDetailHandler.

Lemma existsb_shares_group gs field :
  existsb (λ a, bool_decide (a ∈ gs)) (or_nil field) = true ↔ shares_group gs field.
Proof.
  unfold shares_group. rewrite existsb_exists. split.
  - intros (g & Hin%list_elem_of_In & Hg%bool_decide_eq_true). eauto.
  - intros (g & Hin & Hg). exists g. split; [by apply list_elem_of_In|].
    by apply bool_decide_eq_true.
Qed.

Lemma hasAccess_spec user gs cdoc :
  hasAccess user gs cdoc = true
  ↔ shares_group gs (c_assign cdoc) ∨ shares_group gs (c_classes cdoc)
    ∨ u_id user ∈ or_nil (c_teachers cdoc).
Proof.
  unfold hasAccess.
  rewrite !orb_true_iff, !existsb_shares_group, bool_decide_eq_true. tauto.
Qed.

(** X4: [prepare] of the detail page answers CourseNotFound when the
    course does not exist.  For a course that exists it hands out that
    course exactly when [assign] is absent or empty, or the viewer owns
    the course, may see hidden courses, is in an assigned group or in a
    class of the course, or is one of its teachers; every other viewer
    gets NotFound. *)
Theorem detail_prepare_access user listGroup st domainId cid :
  (CourseModel.get st domainId cid = None →
   prepare user listGroup st domainId cid = Throw CourseNotFoundError)
  ∧ (∀ cdoc, CourseModel.get st domainId cid = Some cdoc →
       (may_open user (listGroup (Some (u_id user))) cdoc →
        prepare user listGroup st domainId cid = Ok cdoc)
       ∧ (¬ may_open user (listGroup (Some (u_id user))) cdoc →
        prepare user listGroup st domainId cid = Throw NotFoundError)).
Proof.
  unfold prepare. split; [by intros ->|]. intros cdoc ->.
  pose proof (hasAccess_spec user (listGroup (Some (u_id user))) cdoc) as Haccess.
  pose proof (assign_length_truthy_false cdoc) as Hassign.
  unfold may_open.
  destruct (assign_length_truthy cdoc), (own user cdoc),
    (hasPerm user PERM_VIEW_HIDDEN_HOMEWORK),
    (hasAccess user (listGroup (Some (u_id user))) cdoc); simpl; split; try done.
  all: try (intros Hnot; exfalso; apply Hnot; tauto).
  intros [?|[?|[?|[?|?]]]]; try done.
  - exfalso. destruct Hassign as [_ Hassign]. by specialize (Hassign (or_introl H)).
  - exfalso. destruct Hassign as [_ Hassign]. by specialize (Hassign (or_intror H)).
  - destruct Haccess as [_ Haccess]. by specialize (Haccess H).
Qed.

(** A viewer in no group and a course assigned to group B: not found. *)
Lemma detail_prepare_access_witness :
  prepare (Sample.member 7) (λ _, [])
    {| st_docs := {[ ("system"%string, 2%N) := Sample.class_course ]}; st_status := ∅ |}
    "system" 2%N
  = Throw NotFoundError.
Proof.
  pose proof (detail_prepare_access (Sample.member 7) (λ _, [])
           {| st_docs := {[ ("system"%string, 2%N) := Sample.class_course ]};
              st_status := ∅ |} "system" 2%N) as [_ Hexists].
  destruct (Hexists Sample.class_course) as [_ Hrefused]; [reflexivity|].
  apply Hrefused. clear Hexists Hrefused.
  unfold may_open, shares_group. simpl.
  intros [?|[?|[?|[?|[(g & _ & ?%elem_of_nil)|[(g & _ & ?%elem_of_nil)|?%elem_of_nil]]]]]];
    done.
Defined.

End detail_access.

(** ** The outcomes of an enroll request *)

Section postAttend_outcome.
Import DocumentModel CourseModel CourseDetailHandler.

Lemma isDone_false cdoc now : now < c_endAt cdoc → isDone cdoc now = false.
Proof. unfold isDone. lia. Qed.

(** X5: an enroll request fails on the missing permission first, then on
    an existing enrollment of the user ('Already enrolled in this
    course'), each time leaving the store as it was.  Otherwise it
    succeeds: the user's status document then holds attend = 1,
    enroll = 1, the enrollment instant and the journal it had, the
    counter of the course has grown by one (when the course document
    exists), no other document has changed, and every further enroll
    request of the user fails without changing anything. *)
Theorem postAttend_outcome user cdoc st domainId cid now now' :
  let uid := u_id user in
  let key := (domainId, cid, uid) in
  (hasPerm user PERM_ATTEND_HOMEWORK = false →
   postAttend user cdoc st domainId cid now now'
   = (Throw (PermissionError PERM_ATTEND_HOMEWORK), st))
  ∧ (hasPerm user PERM_ATTEND_HOMEWORK = true → now < c_endAt cdoc →
     Enroll.enrolled domainId cid uid st →
     postAttend user cdoc st domainId cid now now' = (Throw AlreadyEnrolled, st))
  ∧ (hasPerm user PERM_ATTEND_HOMEWORK = true → now < c_endAt cdoc →
     ¬ Enroll.enrolled domainId cid uid st →
     ∃ st', postAttend user cdoc st domainId cid now now' = (Ok (), st')
       ∧ st_status st' !! key
         = Some {| s_docId := cid; s_domainId := domainId; s_uid := uid;
                   s_enroll := Some 1; s_attend := Some 1; s_startAt := Some now';
                   s_journal := st_status st !! key ≫= s_journal |}
       ∧ (∀ k, k ≠ key → st_status st' !! k = st_status st !! k)
       ∧ Enroll.counter domainId cid st'
         = Enroll.counter domainId cid st + Enroll.bump domainId cid st
       ∧ (∀ k, k ≠ (domainId, cid) → st_docs st' !! k = st_docs st !! k)
       ∧ (∀ t t', ∃ e, postAttend user cdoc st' domainId cid t t' = (Throw e, st'))
       ∧ (∀ t t', t < c_endAt cdoc →
            postAttend user cdoc st' domainId cid t t' = (Throw AlreadyEnrolled, st'))).
Proof.
  intros uid key. subst uid key. unfold postAttend, checkPerm. split_and!.
  - by intros ->.
  - intros -> Hnow Hen. rewrite isDone_false by done. unfold attend.
    by rewrite (proj2 (setIfNotStatus_None domainId cid (u_id user) st now') Hen).
  - intros -> Hnow Hnot. rewrite isDone_false by done. unfold attend.
    destruct (setIfNotStatus st domainId cid (u_id user) 1 1 1 now') as [st1|] eqn:Hset;
      [|by apply setIfNotStatus_None in Hset].
    assert (Hen1 : Enroll.enrolled domainId cid (u_id user) (inc st1 domainId cid 1)).
    { by apply setIfNotStatus_Some in Hset as (_ & ? & _). }
    exists (inc st1 domainId cid 1). split_and!; try done.
    + unfold setIfNotStatus in Hset. case_bool_decide; [done|].
      injection Hset as <-. simpl. by rewrite lookup_insert_eq.
    + apply setIfNotStatus_Some in Hset as (_ & _ & _ & Hother & _). exact Hother.
    + apply setIfNotStatus_Some in Hset as (_ & _ & Hdocs & _).
      rewrite inc_counter. unfold Enroll.counter, Enroll.bump. by rewrite Hdocs.
    + intros k Hk. apply setIfNotStatus_Some in Hset as (_ & _ & Hdocs & _).
      unfold inc. simpl. rewrite lookup_alter_ne by done. by rewrite Hdocs.
    + intros t t'. destruct (isDone cdoc t); [by eauto|].
      rewrite (proj2 (setIfNotStatus_None domainId cid (u_id user) _ t') Hen1). eauto.
    + intros t t' Ht. rewrite isDone_false by done.
      by rewrite (proj2 (setIfNotStatus_None domainId cid (u_id user) _ t') Hen1).
Qed.

Lemma postAttend_outcome_witness :
  ∃ st', postAttend (Sample.member 7) Sample.course Sample.store "system" 1%N
           Sample.jan01 Sample.jan01 = (Ok (), st')
    ∧ Enroll.counter "system" 1%N st' = 1
    ∧ postAttend (Sample.member 7) Sample.course st' "system" 1%N
        (Sample.jan01 + 1) (Sample.jan01 + 1) = (Throw AlreadyEnrolled, st').
Proof.
  pose proof (postAttend_outcome (Sample.member 7) Sample.course Sample.store "system" 1%N
                Sample.jan01 Sample.jan01) as (_ & _ & Hok).
  destruct Hok as (st' & Hrun & _ & _ & Hcount & _ & _ & Hagain).
  - reflexivity.
  - vm_compute. reflexivity.
  - vm_compute. discriminate.
  - exists st'. split_and!; [exact Hrun| |].
    + rewrite Hcount. reflexivity.
    + apply Hagain. vm_compute. reflexivity.
Defined.

End postAttend_outcome.

(** ** Downloading an attachment *)

Section download.
Import CourseFileDownloadHandler.
Variable Link : Type.
Variable signDownloadLink : string * ObjectId * string → option string → bool → string → Link.

(** X6: the download handler answers CourseNotFound when the course does
    not exist and signs a link otherwise, for whatever file name it is
    given; it runs no access check of its own, so it also signs a link
    for a viewer to whom [prepare] of the detail page answers NotFound. *)
Theorem download_without_access_check user listGroup st (domainId : string)
    (cid : ObjectId) (filename : string) (noDisposition : bool) :
  let link := signDownloadLink (domainId, cid, filename)
                (if noDisposition then None else Some filename) false "user"%string in
  (CourseModel.get st domainId cid = None →
   get Link signDownloadLink st domainId cid filename noDisposition
   = Throw CourseNotFoundError)
  ∧ (is_Some (CourseModel.get st domainId cid) →
     get Link signDownloadLink st domainId cid filename noDisposition = Ok link)
  ∧ (CourseDetailHandler.prepare user listGroup st domainId cid = Throw NotFoundError →
     get Link signDownloadLink st domainId cid filename noDisposition = Ok link).
Proof.
  intros link. unfold get, CourseDetailHandler.prepare. split_and!.
  - by intros ->.
  - by intros [cdoc ->].
  - destruct (CourseModel.get st domainId cid); [done|discriminate].
Qed.

End download.

(** The viewer in no group and the course assigned to group B: the
    detail page is refused, the link is signed. *)
Lemma download_without_access_check_witness :
  let st := {| st_docs := {[ ("system"%string, 2%N) := Sample.class_course ]};
               st_status := ∅ |} in
  CourseDetailHandler.prepare (Sample.member 7) (λ _, []) st "system" 2%N
  = Throw NotFoundError
  ∧ CourseFileDownloadHandler.get string (λ target _ _ _, target.2) st "system" 2%N
      "notes.pdf" false
    = Ok "notes.pdf"%string.
Proof.
  intros st.
  assert (Hrefused : CourseDetailHandler.prepare (Sample.member 7) (λ _, []) st "system" 2%N
                     = Throw NotFoundError) by reflexivity.
  split; [exact Hrefused|].
  exact (proj2 (proj2 (download_without_access_check string (λ target _ _ _, target.2)
                         (Sample.member 7) (λ _, []) st "system" 2%N "notes.pdf" false))
           Hrefused).
Defined.

(** ** The pattern of the title search *)

Section pattern.
Context `{host : Host}.
Import RegExp CourseMainHandler.

Lemma length_escapeRegExp s :
  (length s ≤ length (escapeRegExp s) ≤ 2 * length s)%nat.
Proof.
  induction s as [|c s IH]; [simpl; lia|].
  change (escapeRegExp (c :: s))
    with ((if is_syntax_char c then [backslash; c] else [c]) ++ escapeRegExp s).
  rewrite length_app. destruct (is_syntax_char c); simpl; lia.
Qed.

(** X7: whatever the query, the pattern of the title search is read as
    the characters of the lower-cased query, each taken literally, after
    a [^] when the query has fewer than two code units: no character of
    the query acts as pattern syntax and no query yields a pattern that
    cannot be read.  Escaping at most doubles the length. *)
Theorem title_pattern_is_literal q :
  parse (source (title_regex q))
  = Some ((if bool_decide (2 ≤ length q)%nat then [] else [Bol]) ++ (Lit <$> toLowerCase q))
  ∧ (length (toLowerCase q) ≤ length (escaped q) ≤ 2 * length (toLowerCase q))%nat.
Proof.
  split; [|apply length_escapeRegExp].
  change (source (title_regex q))
    with (if bool_decide (2 ≤ length q)%nat then escaped q else caret :: escaped q).
  unfold escaped. case_bool_decide.
  - apply parse_escapeRegExp.
  - apply parse_caret_escapeRegExp.
Qed.

End pattern.

(** ** What a successful create or update stores *)

Section postUpdate_effect.
Import CourseEditHandler.

(** X8: a request whose parameters are all accepted, with a well-formed
    time range.  When its problem list holds a number that resolves to no
    problem it fails with ProblemNotFound and changes nothing.  Otherwise
    it succeeds, and the ids stored are the numbers of the list, none
    dropped, each a non-zero integer that resolves for the viewer.  A
    created course is stored under the new identifier with the viewer as
    owner, counter 0 and no attachments, the other documents staying as
    they are.  An update of an existing course replaces title, content,
    problems, times, maintainers, teachers, groups and classes of the
    document and keeps its identity, owner, counter and attachments; no
    other document changes.  [prepare], which runs first, answers
    CourseNotFound for a course that does not exist. *)
Theorem postUpdate_effect `{Host} resolves set_absent user st domainId q newId p b e :
  params q = Ok p →
  Date_of_string (p_beginAtDate p ++ space :: p_beginAtTime p) = Some b →
  Date_of_string (p_endAtDate p ++ space :: p_endAtTime p) = Some e →
  b < e →
  let pids := parse_pids (p_pids p) in
  let ids := omap as_integer pids in
  let args := p_args p in
  let result := postUpdate resolves set_absent user st domainId q newId in
  (pids ≠ [] → getList_ok resolves user pids = false →
   result = (Throw ProblemNotFoundError, st))
  ∧ (pids = [] ∨ getList_ok resolves user pids = true →
     Forall (λ z, z ≠ 0 ∧ resolves (canViewHidden user) z = true) ids
     ∧ length ids = length pids
     ∧ match p_cid p with
       | None =>
           result
           = (Ok newId,
              {| st_docs :=
                   <[(domainId, newId) :=
                       {| c_docId := newId; c_domainId := domainId; c_owner := u_id user;
                          c_maintainer := Some (a_maintainer args);
                          c_title := p_title p; c_content := p_content p;
                          c_beginAt := b; c_endAt := e;
                          c_attend := 0; c_pids := ids; c_files := None;
                          c_assign := Some (a_assign args);
                          c_classes := Some (a_classes args);
                          c_teachers := Some (a_teachers args) |}]> (st_docs st);
                 st_status := st_status st |})
       | Some c =>
           result.1 = Ok c
           ∧ ∀ old, CourseModel.get st domainId c = Some old →
               result.2
               = {| st_docs :=
                      <[(domainId, c) :=
                          {| c_docId := c_docId old; c_domainId := c_domainId old;
                             c_owner := c_owner old;
                             c_maintainer := Some (a_maintainer args);
                             c_title := p_title p; c_content := p_content p;
                             c_beginAt := b; c_endAt := e;
                             c_attend := c_attend old; c_pids := ids;
                             c_files := c_files old;
                             c_assign := Some (a_assign args);
                             c_classes := Some (a_classes args);
                             c_teachers := Some (a_teachers args) |}]> (st_docs st);
                    st_status := st_status st |}
       end)
  ∧ (∀ c, CourseModel.get st domainId c = None →
     prepare user st domainId (Some c) = Throw CourseNotFoundError).
Proof.
  intros Hp Hb He Hlt pids ids args result. subst result. unfold postUpdate.
  rewrite Hp. unfold postUpdate_body.
  rewrite Hb, He, bool_decide_eq_false_2 by lia. fold pids. fold ids. split_and!.
  - intros Hne Hbad. rewrite Hbad. rewrite bool_decide_eq_false_2; [done|].
    by destruct pids.
  - intros Hgood.
    assert (Hpass : negb (bool_decide (length pids = 0%nat))
                    && negb (getList_ok resolves user pids) = false).
    { destruct Hgood as [-> | ->]; [done|]. apply andb_false_r. }
    rewrite Hpass.
    assert (Hids : Forall (λ z, z ≠ 0 ∧ resolves (canViewHidden user) z = true) ids
                   ∧ length ids = length pids).
    { destruct Hgood as [Hnil|Hok].
      - subst ids. rewrite Hnil. done.
      - apply omap_as_integer_resolved; [apply parse_pids_truthy|exact Hok]. }
    destruct Hids as [Hids Hlen]. split; [done|]. split; [done|].
    destruct (p_cid p) as [c|]; simpl.
    + split; [done|]. intros old Hold. unfold edit.
      unfold CourseModel.get in Hold. by rewrite Hold.
    + done.
  - intros c Hnone. unfold prepare. by rewrite Hnone.
Qed.

Lemma postUpdate_effect_witness :
  let result :=
    @postUpdate ReferenceHost.host Sample.only_problem_1 Sample.ignore_absent
      (Sample.member 2) Sample.store "system"
      (Sample.creation "1,abc" "2024-01-01" "00:00" "2024-01-31" "00:00") 9%N in
  result.1 = Ok 9%N ∧ st_status result.2 = st_status Sample.store.
Proof.
  intros result.
  pose proof (@postUpdate_effect ReferenceHost.host Sample.only_problem_1
                Sample.ignore_absent (Sample.member 2) Sample.store "system"
                (Sample.creation "1,abc" "2024-01-01" "00:00" "2024-01-31" "00:00") 9%N
                (mkParams None (js "Algebra") (js "Groups and rings") (js "1,abc")
                   (js "2024-01-01") (js "00:00") (js "2024-01-31") (js "00:00")
                   Sample.no_args)
                Sample.jan01 Sample.jan31) as Heffect.
  destruct Heffect as (_ & Hgood & _).
  - reflexivity.
  - vm_compute. reflexivity.
  - vm_compute. reflexivity.
  - vm_compute. reflexivity.
  - destruct Hgood as (_ & _ & Hresult).
    + right. vm_compute. reflexivity.
    + simpl in Hresult. subst result. rewrite Hresult. split; reflexivity.
Defined.

End postUpdate_effect.

(** ** Uploading and deleting attachments *)

Section attachments.
Import CourseFilesHandler.

Lemma filter_all {A} (P : A → Prop) `{∀ x, Decision (P x)} (l : list A) :
  Forall P l → filter P l = l.
Proof.
  induction 1 as [|x l Hx _ IH]; [done|]. by rewrite filter_cons_True, IH.
Qed.

Lemma set_files_set_files fs fs' cdoc :
  set_files fs (set_files fs' cdoc) = set_files fs cdoc.
Proof. done. Qed.

Lemma set_files_same fs cdoc : c_files cdoc = Some fs → set_files fs cdoc = cdoc.
Proof. destruct cdoc. simpl. by intros ->. Qed.

Lemma edit_files_lookup st domainId cid fs :
  st_docs (edit_files st domainId cid fs) !! (domainId, cid)
  = set_files fs <$> st_docs st !! (domainId, cid).
Proof. unfold edit_files. simpl. by rewrite lookup_alter_eq. Qed.

Lemma edit_files_lookup_ne st domainId cid fs k :
  k ≠ (domainId, cid) → st_docs (edit_files st domainId cid fs) !! k = st_docs st !! k.
Proof. intros Hk. unfold edit_files. simpl. by rewrite lookup_alter_ne. Qed.

Variable Storage : Type.
Variable put : Storage → Path → Upload → Z → Storage.
Variable getMeta : Storage → Path → option Meta.
Variable del : Storage → list Path → Z → Storage.
Variable edit_files_undefined : Store → string → ObjectId → Store.

(** X9: an upload below both ceilings.  Without a file it is a
    Validation failure and nothing is written.  With a file the blob is
    written first; when the blob store then has no metadata for it the
    request fails with FileUploadError and the course document is left
    as it was; otherwise the attachment list of the course becomes the
    list the handler loaded followed by one new entry, named after the
    upload and carrying the stored size, time and fingerprint, and
    nothing else changes in the store. *)
Theorem postUploadFile_outcome limits user cdoc st blobs domainId cid filename f :
  Z.of_nat (length (or_nil (c_files cdoc))) < contest_files limits →
  let path := (domainId, cid, filename) in
  let blobs' := put blobs path f (u_id user) in
  postUploadFile Storage put getMeta limits user cdoc st blobs domainId cid filename None
  = (Throw (ValidationError ["file"%string]), st, blobs)
  ∧ (total_size (or_nil (c_files cdoc)) + up_size f < contest_files_size limits →
     (getMeta blobs' path = None →
      postUploadFile Storage put getMeta limits user cdoc st blobs domainId cid filename
                     (Some f)
      = (Throw FileUploadError, st, blobs'))
     ∧ (∀ meta, getMeta blobs' path = Some meta →
        ∃ st',
          postUploadFile Storage put getMeta limits user cdoc st blobs domainId cid
                         filename (Some f)
          = (Ok (), st', blobs')
          ∧ st_status st' = st_status st
          ∧ (∀ k, k ≠ (domainId, cid) → st_docs st' !! k = st_docs st !! k)
          ∧ st_docs st' !! (domainId, cid)
            = set_files (or_nil (c_files cdoc) ++ [payload_of filename meta])
              <$> st_docs st !! (domainId, cid))).
Proof.
  intros Hcount path blobs'. unfold postUploadFile.
  rewrite bool_decide_eq_false_2 by lia. split; [done|].
  intros Hsize. rewrite bool_decide_eq_false_2 by lia. fold path. fold blobs'. split.
  - by intros ->.
  - intros meta ->. eexists. split; [done|]. split_and!; [done| |].
    + intros k Hk. by apply edit_files_lookup_ne.
    + apply edit_files_lookup.
Qed.

(** X10: two uploads handled on the same loaded course document, the
    second written after the first.  Both succeed and both blobs are
    written, but the attachment list ends as the loaded list followed by
    the entry of the second upload only: the entry of the first is
    overwritten. *)
Theorem upload_last_writer_wins limits user1 user2 cdoc st blobs domainId cid
    name1 name2 f1 f2 m1 m2 :
  Z.of_nat (length (or_nil (c_files cdoc))) < contest_files limits →
  total_size (or_nil (c_files cdoc)) + up_size f1 < contest_files_size limits →
  total_size (or_nil (c_files cdoc)) + up_size f2 < contest_files_size limits →
  let blobs1 := put blobs (domainId, cid, name1) f1 (u_id user1) in
  let blobs2 := put blobs1 (domainId, cid, name2) f2 (u_id user2) in
  getMeta blobs1 (domainId, cid, name1) = Some m1 →
  getMeta blobs2 (domainId, cid, name2) = Some m2 →
  let first := postUploadFile Storage put getMeta limits user1 cdoc st blobs
                 domainId cid name1 (Some f1) in
  let second := postUploadFile Storage put getMeta limits user2 cdoc first.1.2 first.2
                  domainId cid name2 (Some f2) in
  first.1.1 = Ok () ∧ second.1.1 = Ok () ∧ second.2 = blobs2
  ∧ st_docs first.1.2 !! (domainId, cid)
    = set_files (or_nil (c_files cdoc) ++ [payload_of name1 m1])
      <$> st_docs st !! (domainId, cid)
  ∧ st_docs second.1.2 !! (domainId, cid)
    = set_files (or_nil (c_files cdoc) ++ [payload_of name2 m2])
      <$> st_docs st !! (domainId, cid).
Proof.
  intros Hcount Hsize1 Hsize2 blobs1 blobs2 Hm1 Hm2 first second.
  assert (Hfirst : first
            = (Ok (), edit_files st domainId cid
                        (or_nil (c_files cdoc) ++ [payload_of name1 m1]), blobs1)).
  { subst first. unfold postUploadFile.
    rewrite !bool_decide_eq_false_2 by lia. fold blobs1. by rewrite Hm1. }
  assert (Hsecond : second
            = (Ok (), edit_files first.1.2 domainId cid
                        (or_nil (c_files cdoc) ++ [payload_of name2 m2]), blobs2)).
  { subst second. unfold postUploadFile.
    rewrite !bool_decide_eq_false_2 by lia. rewrite Hfirst. simpl.
    fold blobs2. by rewrite Hm2. }
  rewrite Hsecond, Hfirst. simpl. split_and!; try done.
  - apply edit_files_lookup.
  - rewrite !lookup_alter_eq. by destruct (st_docs st !! (domainId, cid)).
Qed.

(** X11: deleting attachments by name, for a course that has an
    attachment list.  The blobs of all the names are asked to be deleted
    and the list of the course becomes the loaded list without the
    entries of those names: an entry stays exactly when its name was not
    given, the entries that stay keep their order, and no other document
    changes.  Names that are not in the list and an empty list of names
    change nothing in the list. *)
Theorem postDeleteFiles_effect user cdoc st blobs domainId cid names fs :
  c_files cdoc = Some fs →
  let result := postDeleteFiles Storage del edit_files_undefined user cdoc st blobs
                  domainId cid names in
  let kept := filter (λ i, file_name i ∉ names) fs in
  result.2 = del blobs ((λ t, (domainId, cid, t)) <$> names) (u_id user)
  ∧ st_status result.1 = st_status st
  ∧ (∀ k, k ≠ (domainId, cid) → st_docs result.1 !! k = st_docs st !! k)
  ∧ st_docs result.1 !! (domainId, cid) = set_files kept <$> st_docs st !! (domainId, cid)
  ∧ (∀ i, i ∈ kept ↔ i ∈ fs ∧ file_name i ∉ names)
  ∧ kept `sublist_of` fs
  ∧ ((∀ i, i ∈ fs → file_name i ∉ names) → kept = fs).
Proof using Storage del edit_files_undefined.
  intros Hfiles result kept. subst result. unfold postDeleteFiles, remaining.
  rewrite Hfiles. simpl. fold kept. split_and!.
  - reflexivity.
  - reflexivity.
  - intros k Hk. by apply edit_files_lookup_ne.
  - apply edit_files_lookup.
  - intros i. subst kept. rewrite list_elem_of_filter. split; intros [? ?]; by split.
  - apply sublist_filter.
  - intros Hnone. apply filter_all. by apply Forall_forall.
Qed.

(** X12: an upload followed by the deletion of the uploaded name, when
    no attachment of the course had that name: the document of the
    course is again what it was, with the attachment list it had (an
    absent list comes back as the empty list), and nothing else in the
    store has changed. *)
Theorem upload_delete_round_trip limits user cdoc st blobs domainId cid filename f meta :
  CourseModel.get st domainId cid = Some cdoc →
  Z.of_nat (length (or_nil (c_files cdoc))) < contest_files limits →
  total_size (or_nil (c_files cdoc)) + up_size f < contest_files_size limits →
  getMeta (put blobs (domainId, cid, filename) f (u_id user)) (domainId, cid, filename)
  = Some meta →
  filename ∉ file_name <$> or_nil (c_files cdoc) →
  let up := postUploadFile Storage put getMeta limits user cdoc st blobs domainId cid
              filename (Some f) in
  ∃ cdoc1,
    up.1.1 = Ok ()
    ∧ CourseModel.get up.1.2 domainId cid = Some cdoc1
    ∧ c_files cdoc1 = Some (or_nil (c_files cdoc) ++ [payload_of filename meta])
    ∧ let down := postDeleteFiles Storage del edit_files_undefined user cdoc1 up.1.2 up.2
                    domainId cid [filename] in
      st_docs down.1 !! (domainId, cid) = Some (set_files (or_nil (c_files cdoc)) cdoc)
      ∧ (∀ k, k ≠ (domainId, cid) → st_docs down.1 !! k = st_docs st !! k)
      ∧ st_status down.1 = st_status st
      ∧ (is_Some (c_files cdoc) → down.1 = st).
Proof.
  intros Hget Hcount Hsize Hmeta Hfresh up.
  assert (Hup : up = (Ok (), edit_files st domainId cid
                               (or_nil (c_files cdoc) ++ [payload_of filename meta]),
                      put blobs (domainId, cid, filename) f (u_id user))).
  { subst up. unfold postUploadFile. rewrite !bool_decide_eq_false_2 by lia.
    by rewrite Hmeta. }
  unfold CourseModel.get in Hget.
  exists (set_files (or_nil (c_files cdoc) ++ [payload_of filename meta]) cdoc).
  rewrite Hup. simpl. split; [done|]. split.
  { unfold CourseModel.get. simpl. by rewrite lookup_alter_eq, Hget. }
  split; [done|]. unfold postDeleteFiles, remaining. simpl.
  assert (Hkept : filter (λ i, file_name i ∉ [filename])
                    (or_nil (c_files cdoc) ++ [payload_of filename meta])
                  = or_nil (c_files cdoc)).
  { rewrite filter_app, filter_cons_False, filter_nil, app_nil_r.
    - apply filter_all, Forall_forall. intros i Hi Hname.
      apply list_elem_of_singleton in Hname. apply Hfresh.
      rewrite <- Hname. by apply list_elem_of_fmap_2.
    - simpl. intros Hnot. apply Hnot. by left. }
  rewrite Hkept. split_and!.
  - rewrite !lookup_alter_eq, Hget. done.
  - intros k Hk. by rewrite !lookup_alter_ne.
  - done.
  - intros [fs Hfs]. destruct st as [docs status]. unfold edit_files. simpl in *.
    f_equal. rewrite alter_alter_eq. apply alter_id. intros x Hx.
    rewrite Hget in Hx. injection Hx as <-. rewrite Hfs. simpl.
    change (set_files fs cdoc = cdoc). by apply set_files_same.
Qed.

(** X13: deleting a course.  A user who does not own the course and may
    not edit courses is refused and nothing changes.  Otherwise the
    course document and the status documents of all its students are
    gone, the blobs of its attachments are asked to be deleted, every
    other course and every status document of another course stay as
    they are, and the detail page of the course answers CourseNotFound
    from then on. *)
Theorem postDelete_effect user cdoc st blobs domainId cid :
  let result := CourseEditHandler.postDelete Storage del user cdoc st blobs domainId cid in
  (own user cdoc = false → hasPerm user PERM_EDIT_HOMEWORK = false →
   result = (Throw (PermissionError PERM_EDIT_HOMEWORK), st, blobs))
  ∧ (own user cdoc = true ∨ hasPerm user PERM_EDIT_HOMEWORK = true →
     result.1.1 = Ok ()
     ∧ result.2 = del blobs ((λ i, (domainId, cid, file_name i)) <$> or_nil (c_files cdoc))
                    (u_id user)
     ∧ CourseModel.get result.1.2 domainId cid = None
     ∧ (∀ uid, CourseModel.getStatus result.1.2 domainId cid uid = None)
     ∧ (∀ k, k ≠ (domainId, cid) → st_docs result.1.2 !! k = st_docs st !! k)
     ∧ (∀ k, k.1 ≠ (domainId, cid) → st_status result.1.2 !! k = st_status st !! k)
     ∧ (∀ viewer listGroup,
          CourseDetailHandler.prepare viewer listGroup result.1.2 domainId cid
          = Throw CourseNotFoundError)).
Proof.
  intros result. subst result. unfold CourseEditHandler.postDelete, checkPerm. split.
  - by intros -> ->.
  - intros Hmay.
    replace (if negb (own user cdoc)
             then if hasPerm user PERM_EDIT_HOMEWORK
                  then Ok () else Throw (PermissionError PERM_EDIT_HOMEWORK)
             else Ok ()) with (@Ok () ())
      by (destruct Hmay as [-> | ->]; [done|by destruct (own user cdoc)]).
    simpl.
    assert (Hgone : CourseModel.get (CourseModel.del st domainId cid) domainId cid = None).
    { unfold CourseModel.get, CourseModel.del. simpl. apply lookup_delete_eq. }
    split_and!; try done.
    + intros uid. unfold CourseModel.getStatus, CourseModel.del. simpl.
      apply map_lookup_filter_None. right. intros x _ Hkeep. by apply Hkeep.
    + intros k Hk. unfold CourseModel.del. simpl. by rewrite lookup_delete_ne.
    + intros k Hk. unfold CourseModel.del. simpl.
      destruct (st_status st !! k) as [x|] eqn:Hx.
      * by apply map_lookup_filter_Some.
      * apply map_lookup_filter_None. by left.
    + intros viewer listGroup. unfold CourseDetailHandler.prepare. by rewrite Hgone.
Qed.

End attachments.

Lemma postUploadFile_outcome_witness :
  ∃ st',
    CourseFilesHandler.postUploadFile Sample.Blobs Sample.blob_put Sample.blob_getMeta
      Sample.limits (Sample.member 2) Sample.course Sample.store [] "system" 1%N "c.pdf"
      (Some Sample.upload)
    = (Ok (), st', Sample.blob_put [] ("system"%string, 1%N, "c.pdf"%string) Sample.upload 2)
    ∧ st_status st' = st_status Sample.store.
Proof.
  pose proof (postUploadFile_outcome Sample.Blobs Sample.blob_put Sample.blob_getMeta
                Sample.limits (Sample.member 2) Sample.course Sample.store [] "system" 1%N
                "c.pdf" Sample.upload) as Houtcome.
  destruct Houtcome as [_ Hfile]; [vm_compute; reflexivity|].
  destruct Hfile as [_ Hstored]; [vm_compute; reflexivity|].
  destruct (Hstored (CourseFilesHandler.mkMeta (Some 100) None None) eq_refl)
    as (st' & Hrun & Hstatus & _).
  exists st'. split; [exact Hrun|exact Hstatus].
Defined.

Lemma upload_last_writer_wins_witness :
  let first := CourseFilesHandler.postUploadFile Sample.Blobs Sample.blob_put
                 Sample.blob_getMeta Sample.limits (Sample.member 2) Sample.course
                 Sample.store [] "system" 1%N "a.pdf" (Some Sample.upload) in
  let second := CourseFilesHandler.postUploadFile Sample.Blobs Sample.blob_put
                  Sample.blob_getMeta Sample.limits (Sample.member 3) Sample.course
                  first.1.2 first.2 "system" 1%N "b.pdf" (Some Sample.upload) in
  first.1.1 = Ok () ∧ second.1.1 = Ok ()
  ∧ (st_docs second.1.2 !! ("system"%string, 1%N)) ≫= c_files
    = Some [mkFileInfo "b.pdf" "b.pdf" (Some 100) None None].
Proof.
  intros first second.
  pose proof (upload_last_writer_wins Sample.Blobs Sample.blob_put Sample.blob_getMeta
                Sample.limits (Sample.member 2) (Sample.member 3) Sample.course
                Sample.store [] "system" 1%N "a.pdf" "b.pdf" Sample.upload Sample.upload
                (CourseFilesHandler.mkMeta (Some 100) None None)
                (CourseFilesHandler.mkMeta (Some 100) None None)) as Hrace.
  destruct Hrace as (H1 & H2 & _ & _ & Hlist); try (vm_compute; reflexivity).
  split; [exact H1|]. split; [exact H2|].
  refine (eq_trans (f_equal (λ o, o ≫= c_files) Hlist) _). reflexivity.
Defined.

Lemma postDeleteFiles_effect_witness :
  let cdoc := Sample.with_files Sample.two_files Sample.course in
  let result := CourseFilesHandler.postDeleteFiles Sample.Blobs Sample.blob_del
                  Sample.ignore_undefined (Sample.member 2) cdoc Sample.store []
                  "system" 1%N ["a.pdf"%string] in
  (st_docs result.1 !! ("system"%string, 1%N)) ≫= c_files
  = Some [mkFileInfo "b.pdf" "b.pdf" (Some 300) None None].
Proof.
  intros cdoc result.
  pose proof (postDeleteFiles_effect Sample.Blobs Sample.blob_del Sample.ignore_undefined
                (Sample.member 2) cdoc Sample.store [] "system" 1%N ["a.pdf"%string]
                Sample.two_files eq_refl) as (_ & _ & _ & Hlist & _).
  refine (eq_trans (f_equal (λ o, o ≫= c_files) Hlist) _). reflexivity.
Defined.

Lemma upload_delete_round_trip_witness :
  let up := CourseFilesHandler.postUploadFile Sample.Blobs Sample.blob_put
              Sample.blob_getMeta Sample.limits (Sample.member 2) Sample.course
              Sample.store [] "system" 1%N "c.pdf" (Some Sample.upload) in
  ∃ cdoc1,
    CourseModel.get up.1.2 "system" 1%N = Some cdoc1
    ∧ st_docs (CourseFilesHandler.postDeleteFiles Sample.Blobs Sample.blob_del
                 Sample.ignore_undefined (Sample.member 2) cdoc1 up.1.2 up.2
                 "system" 1%N ["c.pdf"%string]).1 !! ("system"%string, 1%N)
      = Some (CourseFilesHandler.set_files [] Sample.course).
Proof.
  intros up.
  pose proof (upload_delete_round_trip Sample.Blobs Sample.blob_put Sample.blob_getMeta
                Sample.blob_del Sample.ignore_undefined Sample.limits (Sample.member 2)
                Sample.course Sample.store [] "system" 1%N "c.pdf" Sample.upload
                (CourseFilesHandler.mkMeta (Some 100) None None)) as Hround.
  destruct Hround as (cdoc1 & _ & Hget & _ & Hback & _).
  - reflexivity.
  - vm_compute. reflexivity.
  - vm_compute. reflexivity.
  - reflexivity.
  - simpl. apply not_elem_of_nil.
  - exists cdoc1. split; [exact Hget|exact Hback].
Defined.

Lemma postDelete_effect_witness :
  let result := CourseEditHandler.postDelete Sample.Blobs Sample.blob_del (Sample.member 2)
                  Sample.course Sample.store [] "system" 1%N in
  result.1.1 = Ok () ∧ CourseModel.get result.1.2 "system" 1%N = None.
Proof.
  intros result.
  pose proof (postDelete_effect Sample.Blobs Sample.blob_del (Sample.member 2)
                Sample.course Sample.store [] "system" 1%N) as [_ Hdone].
  destruct Hdone as (Hok & _ & Hgone & _); [left; reflexivity|].
  split; [exact Hok|exact Hgone].
Defined.

(** ** The problem list of the edit form *)

Section pids_form.
Import CourseEditHandler.

Lemma split_commas_nonempty s : split_commas s ≠ [].
Proof.
  destruct s as [|c s]; simpl; [done|].
  case_bool_decide; [done|]. by destruct (split_commas s).
Qed.

Lemma split_commas_comma s : split_commas (comma :: s) = [] :: split_commas s.
Proof. done. Qed.

Lemma split_commas_other c s :
  c ≠ comma →
  split_commas (c :: s)
  = match split_commas s with
    | piece :: pieces => (c :: piece) :: pieces
    | [] => [[c]]
    end.
Proof. intros Hc. simpl. by rewrite bool_decide_eq_false_2. Qed.

Lemma join_commas_cons x p ps :
  join_commas (x :: p :: ps) = x ++ comma :: join_commas (p :: ps).
Proof. done. Qed.

Lemma split_commas_no_comma x : comma ∉ x → split_commas x = [x].
Proof.
  induction x as [|c x IH]; [done|]. intros Hx. simpl.
  rewrite bool_decide_eq_false_2 by (intros ->; apply Hx; by left).
  rewrite IH; [done|]. intros ?. apply Hx. by right.
Qed.

Lemma split_commas_app x rest :
  comma ∉ x → split_commas (x ++ comma :: rest) = x :: split_commas rest.
Proof.
  induction x as [|c x IH]; intros Hx; simpl.
  - done.
  - rewrite bool_decide_eq_false_2 by (intros ->; apply Hx; by left).
    rewrite IH; [done|]. intros ?. apply Hx. by right.
Qed.

Lemma split_join_commas l :
  l ≠ [] → Forall (λ x, comma ∉ x) l → split_commas (join_commas l) = l.
Proof.
  intros Hne Hl. induction Hl as [|x l Hx Hl IH]; [done|].
  destruct l as [|p ps]; [by apply split_commas_no_comma|].
  rewrite join_commas_cons, split_commas_app by done. f_equal. by apply IH.
Qed.

(** X14: splitting at the commas loses nothing: the pieces, joined with
    commas, are the text again; there is always at least one piece, one
    more than there are commas, and no piece holds a comma. *)
Theorem split_commas_join (s : list N) :
  join_commas (split_commas s) = s
  ∧ Forall (λ x, comma ∉ x) (split_commas s)
  ∧ length (split_commas s) = S (length (filter (λ c, c = comma) s)).
Proof.
  induction s as [|c s (IHjoin & IHpieces & IHlen)].
  - split_and!; [done| |done]. repeat constructor. apply not_elem_of_nil.
  - pose proof (split_commas_nonempty s) as Hne.
    rewrite filter_cons. destruct (decide (c = comma)) as [->|Hc].
    + rewrite split_commas_comma. split_and!.
      * destruct (split_commas s) as [|p ps]; [done|].
        rewrite join_commas_cons, IHjoin. done.
      * constructor; [apply not_elem_of_nil|done].
      * simpl. by rewrite IHlen.
    + rewrite split_commas_other by done.
      destruct (split_commas s) as [|p ps]; [done|].
      apply Forall_cons in IHpieces as [Hp Hps]. split_and!.
      * destruct ps as [|p' ps]; simpl in *; [by rewrite IHjoin|].
        by rewrite <- IHjoin.
      * constructor; [|done]. rewrite elem_of_cons. intros [?|?]; [by apply Hc|done].
      * exact IHlen.
Qed.

Lemma as_integer_nonzero p z : as_integer p = Some z → z ≠ 0 → truthy p = true.
Proof.
  destruct p as [| |v]; simpl; [done|done|].
  case_bool_decide as Hden; [|done]. intros [= Hnum] Hz.
  apply negb_true_iff, not_true_iff_false. intros Hzero%Qeq_bool_iff.
  apply Hz. rewrite <- Hnum.
  pose proof (Qeq_trans _ _ _ (Qred_correct v) Hzero) as Hred.
  unfold Qeq in Hred. change (Qnum 0) with 0 in Hred.
  rewrite Z.mul_0_l in Hred. apply Z.mul_eq_0 in Hred as [Hred|Hred]; [done|lia].
Qed.

Lemma replace_fullwidth_commas_id s :
  fullwidth_comma ∉ s → replace_fullwidth_commas s = s.
Proof.
  induction s as [|c s IH]; [done|]. intros Hs. unfold replace_fullwidth_commas in *.
  rewrite fmap_cons, IH by (intros ?; apply Hs; by right).
  by rewrite bool_decide_eq_false_2 by (intros ->; apply Hs; by left).
Qed.

Lemma elem_of_join_commas c l :
  c ∈ join_commas l → c = comma ∨ ∃ x, x ∈ l ∧ c ∈ x.
Proof.
  induction l as [|x l IH]; [by intros ?%elem_of_nil|].
  destruct l as [|p ps].
  - intros Hc. right. exists x. split; [by left|done].
  - rewrite join_commas_cons, elem_of_app, elem_of_cons.
    intros [Hc|[->|Hc]]; [|by left|].
    + right. exists x. split; [by left|done].
    + destruct (IH Hc) as [->|(y & Hy & Hcy)]; [by left|].
      right. exists y. split; [by right|done].
Qed.

(** X15: the problem list that the edit form shows, submitted as it is,
    is read back as the same list of ids, on a runtime that reads the
    text of each id back as that integer and the empty text as a falsy
    number, for a course whose ids are not 0. *)
Theorem pids_form_round_trip `{Host} (toString : Z → jsstring) cdoc :
  truthy (ToNumber []) = false →
  (∀ z, z ∈ c_pids cdoc →
     z ≠ 0 ∧ as_integer (ToNumber (toString z)) = Some z
     ∧ (comma ∉ toString z) ∧ (fullwidth_comma ∉ toString z)) →
  omap as_integer (parse_pids (get_pids toString (Some cdoc))) = c_pids cdoc.
Proof.
  intros Hempty Hids. unfold parse_pids, get_pids.
  destruct (c_pids cdoc) as [|z0 ps] eqn:Hpids.
  { simpl. rewrite filter_cons_False, filter_nil; [done|]. by rewrite Hempty. }
  rewrite <- Hpids in *. rewrite replace_fullwidth_commas_id.
  2:{ intros [Hc|(x & (z & -> & Hz)%list_elem_of_fmap & Hx)]%elem_of_join_commas;
        [done|]. by apply (Hids z Hz). }
  rewrite split_join_commas.
  2:{ rewrite Hpids. done. }
  2:{ apply Forall_forall. intros x (z & -> & Hz)%list_elem_of_fmap. by apply (Hids z Hz). }
  clear Hpids. induction (c_pids cdoc) as [|z l IH]; [done|].
  destruct (Hids z) as (Hz & Hread & _); [by left|].
  rewrite !fmap_cons, filter_cons_True by (by eapply as_integer_nonzero).
  simpl. rewrite Hread. simpl. f_equal. apply IH.
  intros z' Hz'. apply Hids. by right.
Qed.

Lemma pids_form_round_trip_witness :
  omap as_integer
    (@parse_pids ReferenceHost.host (get_pids Sample.decimal (Some Sample.three_problems)))
  = [1; 25; 1000].
Proof.
  apply (@pids_form_round_trip ReferenceHost.host Sample.decimal Sample.three_problems).
  - reflexivity.
  - intros z Hz. simpl in Hz.
    repeat (apply elem_of_cons in Hz as [-> | Hz];
            [split_and!;
             [done | vm_compute; reflexivity
             | apply (bool_decide_unpack _); vm_compute; exact I
             | apply (bool_decide_unpack _); vm_compute; exact I]|]).
    by apply elem_of_nil in Hz.
Defined.

End pids_form.

(** ** Who may change a course and its attachments *)

(** X16: for an existing course, a request to the edit page or to the
    attachment page is answered with the course or refused with a
    permission error.  The edit route asks for no permission and its
    [prepare] asks an owner for the right to edit their own courses and
    anyone else for the right to edit every course.  The attachment
    route asks for the right to view courses, and its [prepare] treats a
    listed teacher like an owner.  So among the users who may view
    courses the two pages admit the same users except for listed
    teachers who do not own the course; a user who may not view courses
    is refused by the attachment page and not by the edit page.
    Creating a course asks for the right to create only. *)
Theorem edit_and_files_rights user st domainId cid cdoc :
  CourseModel.get st domainId cid = Some cdoc →
  let teacher := bool_decide (u_id user ∈ or_nil (c_teachers cdoc)) in
  let edit := Routes.enter user Routes.course_edit
                (CourseEditHandler.prepare user st domainId (Some cid)) in
  let files := Routes.enter user Routes.course_files
                 (CourseFilesHandler.prepare user st domainId cid) in
  let create := Routes.enter user Routes.course_create
                  (CourseEditHandler.prepare user st domainId None) in
  (edit = Ok (Some cdoc) ∨ ∃ p, edit = Throw (PermissionError p))
  ∧ (files = Ok cdoc ∨ ∃ p, files = Throw (PermissionError p))
  ∧ (edit = Ok (Some cdoc)
     ↔ hasPerm user (if own user cdoc then PERM_EDIT_HOMEWORK_SELF
                     else PERM_EDIT_HOMEWORK) = true)
  ∧ (files = Ok cdoc
     ↔ hasPerm user PERM_VIEW_HOMEWORK = true
       ∧ hasPerm user (if own user cdoc || teacher then PERM_EDIT_HOMEWORK_SELF
                       else PERM_EDIT_HOMEWORK) = true)
  ∧ (hasPerm user PERM_VIEW_HOMEWORK = true →
     own user cdoc = true ∨ teacher = false →
     (edit = Ok (Some cdoc) ↔ files = Ok cdoc))
  ∧ (hasPerm user PERM_VIEW_HOMEWORK = false →
     files = Throw (PermissionError PERM_VIEW_HOMEWORK))
  ∧ (create = Ok None ↔ hasPerm user PERM_CREATE_HOMEWORK = true).
Proof.
  intros Hget teacher edit files create. subst edit files create.
  unfold Routes.enter, CourseEditHandler.prepare, CourseFilesHandler.prepare, checkPerm.
  rewrite Hget. fold teacher. cbn [Routes.perm mbind Result_bind].
  destruct (own user cdoc), teacher; simpl;
    destruct (hasPerm user PERM_VIEW_HOMEWORK),
             (hasPerm user PERM_EDIT_HOMEWORK_SELF),
             (hasPerm user PERM_EDIT_HOMEWORK),
             (hasPerm user PERM_CREATE_HOMEWORK);
    unfold mbind, Result_bind; split_and!; first [by eauto | intuition congruence].
Qed.

(** The owner of the sample course, who holds the right to edit their
    own courses and no other: the edit page opens, the attachment page
    does not. *)
Lemma edit_and_files_rights_witness :
  Routes.enter Sample.self_editor Routes.course_edit
    (CourseEditHandler.prepare Sample.self_editor Sample.store "system" (Some 1%N))
  = Ok (Some Sample.course)
  ∧ Routes.enter Sample.self_editor Routes.course_files
      (CourseFilesHandler.prepare Sample.self_editor Sample.store "system" 1%N)
    = Throw (PermissionError PERM_VIEW_HOMEWORK).
Proof.
  pose proof (edit_and_files_rights Sample.self_editor Sample.store "system" 1%N
                Sample.course) as Hrights.
  destruct Hrights as (_ & _ & Hedit & _ & _ & Hfiles & _); [reflexivity|].
  split; [apply Hedit; reflexivity|apply Hfiles; reflexivity].
Defined.
